(** * CoffeeCanvas (script.js): a shallow embedding and its checked properties

    The gallery script keeps an in-memory array of image records, two
    persisted maps (favorites and notes) and a derived, filtered and sorted
    view.  This development embeds the item pipeline
    fetch -> store -> filter -> sort -> render and the handlers around it.

    Modelling conventions.
    - A JavaScript string is a sequence of UTF-16 code units; the model
      carries the code units below 256 as the characters of [string].
    - Numbers that the script uses as integers (timestamps, counts) are [Z].
    - A plain object used as a dictionary is a [gmap] keyed by strings.  The
      keys the script uses are the ids built by [makeId] ("cf_..."), which are
      never names of [Object.prototype], so [obj[id]] is an own-property
      lookup.
    - The clock, the random generator and the network are inputs: a [World]
      carries what each successive call answers.
    - [String.prototype.localeCompare] belongs to the host and its locale; it
      is the one operation of the class [Collator]. *)

From Stdlib Require Import ZArith NArith Ascii String List Lia.
From Stdlib Require Import DecimalString DecimalZ Sorted Permutation.
From Stdlib Require Import OrderedTypeEx.
From stdpp Require Import gmap strings list.

(* ================================================================= *)
(** ** Host string operations *)

Module Js.

Definition code (c : ascii) : N := N_of_ascii c.

Definition between (lo hi c : ascii) : bool :=
  ((code lo <=? code c) && (code c <=? code hi))%N.

(** WhiteSpace and LineTerminator code units below 256: TAB, LF, VT, FF,
    CR, SP and NBSP. *)
Definition is_white_space (c : ascii) : bool :=
  let n := code c in
  ((n =? 9) || (n =? 10) || (n =? 11) || (n =? 12) || (n =? 13)
   || (n =? 32) || (n =? 160))%N.

(** Lower-case mapping of one code unit below 256: A-Z, and the Latin-1
    capitals U+00C0..U+00DE except the multiplication sign U+00D7. *)
Definition lower_char (c : ascii) : ascii :=
  let n := code c in
  if (between "A" "Z" c
      || ((192 <=? n) && (n <=? 222) && negb (n =? 215)))%N
  then ascii_of_N (n + 32) else c.

Fixpoint toLowerCase (s : string) : string :=
  match s with
  | EmptyString => EmptyString
  | String c s' => String (lower_char c) (toLowerCase s')
  end.

Fixpoint trimStart (s : string) : string :=
  match s with
  | EmptyString => EmptyString
  | String c s' => if is_white_space c then trimStart s' else s
  end.

Definition is_empty (s : string) : bool :=
  match s with EmptyString => true | String _ _ => false end.

Fixpoint trimEnd (s : string) : string :=
  match s with
  | EmptyString => EmptyString
  | String c s' =>
      let t := trimEnd s' in
      if is_white_space c && is_empty t then EmptyString else String c t
  end.

Definition trim (s : string) : string := trimEnd (trimStart s).

Fixpoint all_chars (p : ascii -> bool) (s : string) : bool :=
  match s with
  | EmptyString => true
  | String c s' => p c && all_chars p s'
  end.

Fixpoint startsWith (s p : string) {struct p} : bool :=
  match p, s with
  | EmptyString, _ => true
  | String a p', String b s' => Ascii.eqb a b && startsWith s' p'
  | String _ _, EmptyString => false
  end.

(** [hay.includes(needle)]: the needle occurs at some position. *)
Fixpoint includes (hay needle : string) : bool :=
  startsWith hay needle
  || match hay with
     | EmptyString => false
     | String _ hay' => includes hay' needle
     end.

(** [s.slice(k)] for a non-negative [k]. *)
Fixpoint slice (k : nat) (s : string) : string :=
  match k, s with
  | O, _ => s
  | S k', String _ s' => slice k' s'
  | S _, EmptyString => EmptyString
  end.

(** [s.replace(/[:.]/g, "-")]. *)
Fixpoint replace_colon_dot (s : string) : string :=
  match s with
  | EmptyString => EmptyString
  | String c s' =>
      String (if (Ascii.eqb c ":" || Ascii.eqb c ".")%bool then "-"%char else c)
             (replace_colon_dot s')
  end.

(** Decimal text of an integer, as a template literal prints it. *)
Definition number_text (z : Z) : string :=
  NilZero.string_of_int (Z.to_int z).

(** A decimal field padded with zeros on the left to [w] digits. *)
Fixpoint zeros (n : nat) : string :=
  match n with
  | O => EmptyString
  | S n' => String "0" (zeros n')
  end.

Definition field (w : nat) (z : Z) : string :=
  let s := number_text z in zeros (w - String.length s) +:+ s.

(** [Date.prototype.toISOString] for a time value [t] in milliseconds
    since the epoch, years 0000 to 9999: the civil date of the day number
    (the proleptic Gregorian calendar, counted in 400-year eras from
    0000-03-01) and the time of day. *)
Definition toISOString (t : Z) : string :=
  let day := (t / 86400000)%Z in
  let ms := (t mod 86400000)%Z in
  let z := (day + 719468)%Z in
  let era := (z / 146097)%Z in
  let doe := (z mod 146097)%Z in
  let yoe := ((doe - doe / 1460 + doe / 36524 - doe / 146096) / 365)%Z in
  let doy := (doe - (365 * yoe + yoe / 4 - yoe / 100))%Z in
  let mp := ((5 * doy + 2) / 153)%Z in
  let d := (doy - (153 * mp + 2) / 5 + 1)%Z in
  let m := (if (mp <? 10)%Z then mp + 3 else mp - 9)%Z in
  let y := (yoe + era * 400 + (if (m <=? 2)%Z then 1 else 0))%Z in
  field 4 y +:+ "-" +:+ field 2 m +:+ "-" +:+ field 2 d +:+ "T"
    +:+ field 2 (ms / 3600000) +:+ ":" +:+ field 2 (ms / 60000 mod 60)
    +:+ ":" +:+ field 2 (ms / 1000 mod 60) +:+ "."
    +:+ field 3 (ms mod 1000) +:+ "Z".

(** [Array.prototype.sort(cmp)], as the contents it leaves in the array.
    ECMAScript requires the sort to be stable; for a consistent comparator
    the stable sorted arrangement is unique, whatever algorithm the host
    runs.  It is computed here by stable insertion: an element goes in
    front of the first later element it does not compare greater than. *)
Fixpoint insert {A} (cmp : A -> A -> Z) (x : A) (l : list A) : list A :=
  match l with
  | [] => [x]
  | y :: l' => if (cmp x y <=? 0)%Z then x :: l else y :: insert cmp x l'
  end.

Fixpoint sort {A} (cmp : A -> A -> Z) (l : list A) : list A :=
  match l with
  | [] => []
  | x :: l' => insert cmp x (sort cmp l')
  end.

(** [o || ""] for an optional string: [undefined] and the empty string
    are the falsy cases. *)
Definition or_empty (o : option string) : string :=
  match o with
  | Some v => v
  | None => EmptyString
  end.

End Js.

(** The host's collation: [a.localeCompare(b)] is negative, zero or
    positive. *)
Class Collator := localeCompare : string -> string -> Z.

(* ================================================================= *)
(** ** State *)

(** [{ id, displayUrl, sourceUrl, filename, addedAt }] *)
Record Item := {
  id : string;
  sourceUrl : string;
  displayUrl : string;
  filename : string;
  addedAt : Z
}.

(** [localStorage] under the three keys of [LS_KEYS].  A slot is [None]
    when the key is absent, empty or does not parse; otherwise it holds the
    value that [JSON.parse] gives back, which for a value written by this
    script is the map that was written.  Favorites have the shape
    [{ [id]: true }], notes the shape [{ [id]: "note text" }]. *)
Record Storage := {
  favorites : option (gmap string unit);
  notes : option (gmap string string);
  theme : option string
}.

(* ================================================================= *)
(** ** Utilities *)

(** Safely parse JSON from localStorage. *)
Definition loadJSON {A} (stored : option A) (fallback : A) : A :=
  match stored with
  | Some v => v
  | None => fallback
  end.

(** Normalize text for case-insensitive comparisons. *)
Definition norm (str : string) : string := Js.trim (Js.toLowerCase str).

(** The character class [[a-zA-Z0-9 _#-]]. *)
Definition search_char (c : ascii) : bool :=
  Js.between "a" "z" c || Js.between "A" "Z" c || Js.between "0" "9" c
  || Ascii.eqb c " " || Ascii.eqb c "_" || Ascii.eqb c "#" || Ascii.eqb c "-".

(** [/^[a-zA-Z0-9 _#-]+$/.test(s)] *)
Definition search_regex_test (s : string) : bool :=
  negb (Js.is_empty s) && Js.all_chars search_char s.

Definition isValidSearch (str : string) : bool :=
  if (String.length (Js.trim str) =? 0)%nat then true
  else search_regex_test (Js.trim str).

(* ================================================================= *)
(** ** Storage (favorites and notes) *)

Definition getFavoritesMap (ls : Storage) : gmap string unit :=
  loadJSON (favorites ls) ∅.

Definition setFavoritesMap (map : gmap string unit) (ls : Storage) : Storage :=
  {| favorites := Some map; notes := notes ls; theme := theme ls |}.

Definition isFavorite (id : string) (ls : Storage) : bool :=
  match getFavoritesMap ls !! id with
  | Some _ => true
  | None => false
  end.

Definition toggleFavorite (id : string) (ls : Storage) : Storage :=
  let fav := getFavoritesMap ls in
  let fav :=
    match fav !! id with
    | Some _ => delete id fav
    | None => <[id := tt]> fav
    end in
  setFavoritesMap fav ls.

Definition getNotesMap (ls : Storage) : gmap string string :=
  loadJSON (notes ls) ∅.

Definition setNotesMap (map : gmap string string) (ls : Storage) : Storage :=
  {| favorites := favorites ls; notes := Some map; theme := theme ls |}.

Definition getNote (id : string) (ls : Storage) : string :=
  Js.or_empty (getNotesMap ls !! id).

Definition setNote (id : string) (note : string) (ls : Storage) : Storage :=
  let notes := getNotesMap ls in
  let v := Js.trim note in
  let notes :=
    if negb (Js.is_empty v) then <[id := v]> notes else delete id notes in
  setNotesMap notes ls.

(* ================================================================= *)
(** ** Search and sort *)

(** The predicate handed to [list.filter] in [applySearch]. *)
Definition matches (notes : gmap string string) (qq : string) (it : Item) : bool :=
  let hay1 := norm (filename it) in
  let hay2 := norm (Js.or_empty (notes !! id it)) in
  Js.includes hay1 qq || Js.includes hay2 qq.

Definition applySearch (ls : Storage) (l : list Item) (q : string) : list Item :=
  let qq := norm q in
  if Js.is_empty qq then l
  else
    let notes := getNotesMap ls in
    List.filter (matches notes qq) l.

Definition cmp_newest (a b : Item) : Z := (addedAt b - addedAt a)%Z.

Definition cmp_az `{Collator} (a b : Item) : Z :=
  localeCompare (filename a) (filename b).

Definition cmp_za `{Collator} (a b : Item) : Z :=
  localeCompare (filename b) (filename a).

Definition cmp_fav (ls : Storage) (a b : Item) : Z :=
  let af := (if isFavorite (id a) ls then 1 else 0)%Z in
  let bf := (if isFavorite (id b) ls then 1 else 0)%Z in
  if negb (bf =? af)%Z then (bf - af)%Z else (addedAt b - addedAt a)%Z.

(** The contents of the array that [applySort] returns, from the contents
    of the array it is given ([Ref.applySort] below keeps the two arrays
    apart). *)
Definition applySort `{Collator} (ls : Storage) (l : list Item) (mode : string)
  : list Item :=
  let out := l in
  if String.eqb mode "newest" then Js.sort cmp_newest out
  else if String.eqb mode "az" then Js.sort cmp_az out
  else if String.eqb mode "za" then Js.sort cmp_za out
  else if String.eqb mode "fav" then Js.sort (cmp_fav ls) out
  else out.

(** Arrays as the script holds them: references into a store.  [[...list]]
    allocates, [out.sort] writes through the reference, [list.filter]
    allocates, and [return list] hands the caller's own reference back. *)
Module Ref.

Abbreviation heap := (gmap positive (list Item)).

Definition contents (h : heap) (a : positive) : list Item :=
  default [] (h !! a).

Definition alloc (v : list Item) (h : heap) : positive * heap :=
  let a := fresh (dom h) in (a, <[a := v]> h).

Definition sort_in_place (cmp : Item -> Item -> Z) (a : positive) (h : heap)
  : heap :=
  <[a := Js.sort cmp (contents h a)]> h.

Definition applySearch (ls : Storage) (l : positive) (q : string) (h : heap)
  : positive * heap :=
  let qq := norm q in
  if Js.is_empty qq then (l, h)
  else
    let notes := getNotesMap ls in
    alloc (List.filter (matches notes qq) (contents h l)) h.

Definition applySort `{Collator} (ls : Storage) (l : positive) (mode : string)
  (h : heap) : positive * heap :=
  let '(out, h) := alloc (contents h l) h in
  if String.eqb mode "newest" then (out, sort_in_place cmp_newest out h)
  else if String.eqb mode "az" then (out, sort_in_place cmp_az out h)
  else if String.eqb mode "za" then (out, sort_in_place cmp_za out h)
  else if String.eqb mode "fav" then (out, sort_in_place (cmp_fav ls) out h)
  else (out, h).

End Ref.

(* ================================================================= *)
(** ** The world outside the script *)

(** What the host answers, call after call: [clock k] is the [k]-th reading
    of the clock ([Date.now()], [new Date()]) in milliseconds, [random_text k]
    the text of the [k]-th [Math.random().toString(16)], [network k] the
    outcome of the [k]-th [fetch] ([None]: the promise resolves; [Some m]:
    it rejects with an error whose message is [m]).  [ticks], [draws] and
    [requests] record what has been consumed; [requests] lists the fetched
    URLs, oldest first. *)
Record World := {
  clock : nat -> Z;
  random_text : nat -> string;
  network : nat -> option string;
  ticks : nat;
  draws : nat;
  requests : list string
}.

(** How a call completes. *)
Inductive Completion (A : Type) : Type :=
| Returned (a : A)
| Thrown (message : string).
Arguments Returned {A} a.
Arguments Thrown {A} message.

(** An [async] function, run from call to settlement.  The script awaits
    one promise at a time and disables every control while a batch is in
    flight, so no other handler runs in between. *)
Definition Async (A : Type) : Type := World -> Completion A * World.

#[global] Instance async_ret : MRet Async :=
  fun A a w => (Returned a, w).

#[global] Instance async_bind : MBind Async :=
  fun A B k c w =>
    match c w with
    | (Returned a, w') => k a w'
    | (Thrown m, w') => (Thrown m, w')
    end.

Definition Date_now : Async Z := fun w =>
  (Returned (clock w (ticks w)),
   {| clock := clock w; random_text := random_text w; network := network w;
      ticks := S (ticks w); draws := draws w; requests := requests w |}).

Definition Math_random_toString16 : Async string := fun w =>
  (Returned (random_text w (draws w)),
   {| clock := clock w; random_text := random_text w; network := network w;
      ticks := ticks w; draws := S (draws w); requests := requests w |}).

Definition fetch (url : string) : Async unit := fun w =>
  let w' :=
    {| clock := clock w; random_text := random_text w; network := network w;
       ticks := ticks w; draws := draws w; requests := requests w ++ [url] |} in
  match network w (length (requests w)) with
  | None => (Returned tt, w')
  | Some m => (Thrown m, w')
  end.

(* ================================================================= *)
(** ** Config and API functions *)

Definition BASE_URL : string := "https://coffee.alexflipnote.dev".
Definition RANDOM_IMAGE_URL : string := BASE_URL +:+ "/random".

(** Generate stable ID for favorites/notes. *)
Definition makeId : Async string :=
  now ← Date_now;
  r ← Math_random_toString16;
  mret ("cf_" +:+ Js.number_text now +:+ "_" +:+ Js.slice 2 r).

(** Friendly filename for UI + sort. *)
Definition makeFilename : Async string :=
  t ← Date_now;
  mret ("coffee_" +:+ Js.replace_colon_dot (Js.toISOString t) +:+ ".jpg").

(** Fetch probe: the request is sent, the response body is never read. *)
Definition probeApiReachable : Async string :=
  now ← Date_now;
  r ← Math_random_toString16;
  let cacheBust := "t=" +:+ Js.number_text now +:+ "_" +:+ Js.slice 2 r in
  let probeUrl := RANDOM_IMAGE_URL +:+ "?" +:+ cacheBust in
  _ ← fetch probeUrl;
  mret probeUrl.

(** Create one image item to render. *)
Definition getRandomCoffeeItem : Async Item :=
  sourceUrl ← probeApiReachable;
  id ← makeId;
  filename ← makeFilename;
  addedAt ← Date_now;
  mret {| id := id; sourceUrl := sourceUrl; displayUrl := sourceUrl;
          filename := filename; addedAt := addedAt |}.

(** The loop of [fetchBatch] with [n] iterations left. *)
Fixpoint fetchBatch_loop (n : nat) (out : list Item) : Async (list Item) :=
  match n with
  | O => mret out
  | S n' =>
      it ← getRandomCoffeeItem;
      fetchBatch_loop n' (out ++ [it])
  end.

(** Fetch multiple images sequentially: [i] runs from [0] while
    [i < count]. *)
Definition fetchBatch (count : Z) : Async (list Item) :=
  fetchBatch_loop (Z.to_nat count) [].

(* ================================================================= *)
(** ** The page and the script's variables *)

(** What [renderCard] puts on a card: the item, the badge and the value of
    the note field. *)
Record Card := {
  card_item : Item;
  card_favorite : bool;
  card_note : string
}.

(** The properties of the page's elements that the script reads or writes.
    [controls_disabled] is the [disabled] flag that [setLoading] gives to
    all eight controls at once. *)
Record Document := {
  searchInput_value : string;
  sortSelect_value : string;
  errorBox_hidden : bool;
  errorBox_textContent : string;
  loadingBox_hidden : bool;
  controls_disabled : bool;
  countPill : string;
  favPill : string;
  resultsGrid : list Card;
  emptyState_hidden : bool
}.

Record App := {
  items : list Item;
  query : string;
  sortMode : string;
  isLoading : bool;
  localStorage : Storage;
  document : Document
}.

(** The argument of [brew]: a number or a value of another type. *)
Inductive Value : Type :=
| Num (n : Z)
| NotNum.

Definition with_document (f : Document -> Document) (app : App) : App :=
  {| items := items app; query := query app; sortMode := sortMode app;
     isLoading := isLoading app; localStorage := localStorage app;
     document := f (document app) |}.

Definition with_items (v : list Item) (app : App) : App :=
  {| items := v; query := query app; sortMode := sortMode app;
     isLoading := isLoading app; localStorage := localStorage app;
     document := document app |}.

Definition with_query (v : string) (app : App) : App :=
  {| items := items app; query := v; sortMode := sortMode app;
     isLoading := isLoading app; localStorage := localStorage app;
     document := document app |}.

Definition with_sortMode (v : string) (app : App) : App :=
  {| items := items app; query := query app; sortMode := v;
     isLoading := isLoading app; localStorage := localStorage app;
     document := document app |}.

Definition with_isLoading (v : bool) (app : App) : App :=
  {| items := items app; query := query app; sortMode := sortMode app;
     isLoading := v; localStorage := localStorage app; document := document app |}.

(** Loading UI + disables controls while fetching. *)
Definition setLoading (loading : bool) (app : App) : App :=
  with_document (fun d =>
    {| searchInput_value := searchInput_value d;
       sortSelect_value := sortSelect_value d;
       errorBox_hidden := errorBox_hidden d;
       errorBox_textContent := errorBox_textContent d;
       loadingBox_hidden := negb loading;
       controls_disabled := loading;
       countPill := countPill d; favPill := favPill d;
       resultsGrid := resultsGrid d;
       emptyState_hidden := emptyState_hidden d |})
    (with_isLoading loading app).

(** Show/clear the error container. *)
Definition showError (msg : string) (app : App) : App :=
  with_document (fun d =>
    {| searchInput_value := searchInput_value d;
       sortSelect_value := sortSelect_value d;
       errorBox_hidden := Js.is_empty msg;
       errorBox_textContent := if Js.is_empty msg then EmptyString else msg;
       loadingBox_hidden := loadingBox_hidden d;
       controls_disabled := controls_disabled d;
       countPill := countPill d; favPill := favPill d;
       resultsGrid := resultsGrid d;
       emptyState_hidden := emptyState_hidden d |}) app.

(* ================================================================= *)
(** ** Rendering *)

Definition renderCard (ls : Storage) (item : Item) : Card :=
  {| card_item := item;
     card_favorite := isFavorite (id item) ls;
     card_note := getNote (id item) ls |}.

(** The derived view: filtered, then sorted. *)
Definition view `{Collator} (app : App) : list Item :=
  let filtered := applySearch (localStorage app) (items app) (query app) in
  applySort (localStorage app) filtered (sortMode app).

Definition render `{Collator} (app : App) : App :=
  let ls := localStorage app in
  let sorted := view app in
  with_document (fun d =>
    {| searchInput_value := searchInput_value d;
       sortSelect_value := sortSelect_value d;
       errorBox_hidden := errorBox_hidden d;
       errorBox_textContent := errorBox_textContent d;
       loadingBox_hidden := loadingBox_hidden d;
       controls_disabled := controls_disabled d;
       countPill :=
         Js.number_text (Z.of_nat (length (items app))) +:+ " loaded";
       favPill :=
         Js.number_text (Z.of_nat (size (getFavoritesMap ls))) +:+ " favorites";
       resultsGrid :=
         match sorted with
         | [] => []
         | _ :: _ => List.map (renderCard ls) sorted
         end;
       emptyState_hidden :=
         match sorted with
         | [] => false
         | _ :: _ => true
         end |}) app.

(* ================================================================= *)
(** ** Events *)

Definition search_error : string :=
  "Invalid input: use letters, numbers, spaces, -, _, or # only.".

Definition onSearchInput `{Collator} (app : App) : App :=
  let raw := searchInput_value (document app) in
  let trimmed := Js.trim raw in
  if negb (isValidSearch trimmed) then showError search_error app
  else render (with_query trimmed (showError EmptyString app)).

Definition onSortChange `{Collator} (app : App) : App :=
  render (with_sortMode (sortSelect_value (document app)) app).

Definition count_error : string :=
  "Invalid request: brew count must be greater than 0.".

(** [brew(count)], from the call until its promise settles. *)
Definition brew `{Collator} (count : Value) (app : App) (w : World)
  : App * World :=
  match count with
  | NotNum => (showError count_error app, w)
  | Num n =>
      if (n <=? 0)%Z then (showError count_error app, w)
      else
        let app := setLoading true app in
        let app := showError EmptyString app in
        let '(r, w') := fetchBatch n w in
        let app :=
          match r with
          | Returned batch => render (with_items (batch ++ items app) app)
          | Thrown message =>
              showError
                ("Failed API call: "
                 +:+ (if Js.is_empty message then "Failed to fetch" else message))
                app
          end in
        (setLoading false app, w')
  end.

Definition clearGallery `{Collator} (app : App) : App :=
  render (with_items [] app).

(* ================================================================= *)
(** ** Card and toolbar handlers *)

Definition with_localStorage (v : Storage) (app : App) : App :=
  {| items := items app; query := query app; sortMode := sortMode app;
     isLoading := isLoading app; localStorage := v; document := document app |}.

(** [searchInput.value = v] *)
Definition set_searchInput_value (v : string) (d : Document) : Document :=
  {| searchInput_value := v;
     sortSelect_value := sortSelect_value d;
     errorBox_hidden := errorBox_hidden d;
     errorBox_textContent := errorBox_textContent d;
     loadingBox_hidden := loadingBox_hidden d;
     controls_disabled := controls_disabled d;
     countPill := countPill d; favPill := favPill d;
     resultsGrid := resultsGrid d;
     emptyState_hidden := emptyState_hidden d |}.

(** The click listener that [renderCard] gives to [favBtn]. *)
Definition favBtn_click `{Collator} (item : Item) (app : App) : App :=
  render (with_localStorage (toggleFavorite (id item) (localStorage app)) app).

(** The click listener that [init] gives to [clearSearchBtn]. *)
Definition clearSearchBtn_click `{Collator} (app : App) : App :=
  let app := with_document (set_searchInput_value EmptyString) app in
  let app := with_query EmptyString app in
  let app := showError EmptyString app in
  render app.

(* ================================================================= *)
(** ** Theme *)

(** What [applyTheme] writes on the page: the [data-theme] attribute of the
    root element, and the [aria-pressed] attribute and the text of
    [themeBtn]. *)
Record ThemeView := {
  data_theme : string;
  themeBtn_aria_pressed : string;
  themeBtn_textContent : string
}.

Definition applyTheme (theme : string) (ls : Storage) : Storage * ThemeView :=
  let t := if String.eqb theme "light" then "light" else "dark" in
  ({| favorites := favorites ls; notes := notes ls; theme := Some t |},
   {| data_theme := t;
      themeBtn_aria_pressed := if String.eqb t "light" then "true" else "false";
      themeBtn_textContent :=
        if String.eqb t "light" then "Theme: Light" else "Theme: Dark" |}).

(** [localStorage.getItem(LS_KEYS.theme) || "dark"] *)
Definition stored_theme (ls : Storage) : string :=
  match theme ls with
  | Some v => if Js.is_empty v then "dark" else v
  | None => "dark"
  end.

Definition toggleTheme (ls : Storage) : Storage * ThemeView :=
  let curr := stored_theme ls in
  applyTheme (if String.eqb curr "dark" then "light" else "dark") ls.

(** [init()]: the stored theme is applied, the listeners are attached (the
    handlers above) and the default batch of six is brewed. *)
Definition init `{Collator} (app : App) (w : World) : App * ThemeView * World :=
  let '(ls, tv) := applyTheme (stored_theme (localStorage app)) (localStorage app) in
  let '(app', w') := brew (Num 6) (with_localStorage ls app) w in
  (app', tv, w').

(* ================================================================= *)
(** ** Vocabulary of the statements *)

(** [needle] occurs in [hay]: some text before it, some text after it. *)
Definition occurs (needle hay : string) : Prop :=
  exists pre post : string, hay = pre +:+ needle +:+ post.

(** The characters of a string, as a list. *)
Definition chars (s : string) : list ascii := list_ascii_of_string s.

Definition not_underscore (c : ascii) : bool := negb (Ascii.eqb c "_").

(** What ECMAScript asks of a consistent comparison and every locale's
    [localeCompare] provides: swapping the arguments swaps the sign, and
    "not after" is transitive. *)
Definition consistent (C : Collator) : Prop :=
  (forall a b : string,
      (@localeCompare C a b < 0)%Z <-> (0 < @localeCompare C b a)%Z)
  /\ (forall a b c : string,
         (@localeCompare C a b <= 0)%Z -> (@localeCompare C b c <= 0)%Z ->
         (@localeCompare C a c <= 0)%Z).

(** No two items of the list have filenames that compare equal. *)
Definition no_ties `{Collator} (l : list Item) : Prop :=
  ForallOrdPairs
    (fun a b => localeCompare (filename a) (filename b) <> 0%Z) l.

(** One round trip of [getRandomCoffeeItem] reads the clock four times (the
    cache-buster, the id, the filename, [addedAt]), draws two random
    numbers (the cache-buster, the id) and sends one request.  The
    definitions below name what the [i]-th round trip after [w] reads when
    the ones before it succeeded. *)
Definition round_trip_url (w : World) (i : nat) : string :=
  RANDOM_IMAGE_URL +:+ "?" +:+ "t="
    +:+ Js.number_text (clock w (4 * i + ticks w))
    +:+ "_" +:+ Js.slice 2 (random_text w (2 * i + draws w)).

(** The clock reading and the random digits that [makeId] puts in an id. *)
Definition id_source (w : World) (i : nat) : Z * string :=
  (clock w (4 * i + 1 + ticks w),
   Js.slice 2 (random_text w (2 * i + 1 + draws w))).

Definition id_text (p : Z * string) : string :=
  "cf_" +:+ Js.number_text p.1 +:+ "_" +:+ p.2.

Definition round_trip_item (w : World) (i : nat) : Item :=
  {| id := id_text (id_source w i);
     sourceUrl := round_trip_url w i;
     displayUrl := round_trip_url w i;
     filename :=
       "coffee_"
         +:+ Js.replace_colon_dot (Js.toISOString (clock w (4 * i + 2 + ticks w)))
         +:+ ".jpg";
     addedAt := clock w (4 * i + 3 + ticks w) |}.

(** The world once [n] round trips have succeeded. *)
Definition after (n : nat) (w : World) : World :=
  {| clock := clock w; random_text := random_text w; network := network w;
     ticks := 4 * n + ticks w;
     draws := 2 * n + draws w;
     requests := requests w ++ List.map (round_trip_url w) (seq 0 n) |}.

(** Every stored note is trimmed and not empty. *)
Definition notes_wf (m : gmap string string) : Prop :=
  forall (k v : string), m !! k = Some v -> v <> EmptyString /\ Js.trim v = v.

(** The order that the "fav" mode aims at: a favorite before a
    non-favorite, and within each group the later [addedAt] first. *)
Definition fav_order (ls : Storage) (a b : Item) : Prop :=
  (isFavorite (id a) ls = true /\ isFavorite (id b) ls = false)
  \/ (isFavorite (id a) ls = isFavorite (id b) ls
      /\ (addedAt b <= addedAt a)%Z).

(** The four modes of [sortSelect]. *)
Definition known_mode (mode : string) : Prop :=
  mode = "newest" \/ mode = "az" \/ mode = "za" \/ mode = "fav".

(** A user's action on the storage: a click on a card's favorite button,
    or a note saved for a card. *)
Inductive StorageOp : Type :=
| Toggle (k : string)
| Note (k note : string).

Definition run_op (ls : Storage) (op : StorageOp) : Storage :=
  match op with
  | Toggle k => toggleFavorite k ls
  | Note k note => setNote k note ls
  end.

Definition run_ops (ops : list StorageOp) (ls : Storage) : Storage :=
  fold_left run_op ops ls.

(* ================================================================= *)
(** ** Sample data *)

(** A collation by code units, as the "C" locale would give. *)
Definition ordinal : Collator := fun a b =>
  match String.compare a b with
  | Eq => 0%Z
  | Lt => (-1)%Z
  | Gt => 1%Z
  end.

Definition empty_storage : Storage :=
  {| favorites := None; notes := None; theme := None |}.

Definition sample_item (i f : string) (t : Z) : Item :=
  {| id := i; sourceUrl := RANDOM_IMAGE_URL; displayUrl := RANDOM_IMAGE_URL;
     filename := f; addedAt := t |}.

(** A world with a running clock, fresh draws, and a network that rejects
    the request number [fail_at] (counted from 0). *)
Definition sample_world (fail_at : nat) : World :=
  {| clock := fun k => (1700000000000 + 7 * Z.of_nat k)%Z;
     random_text := fun k => "0.8af" +:+ Js.number_text (Z.of_nat k);
     network := fun k =>
       if (k =? fail_at)%nat then Some "Failed to fetch" else None;
     ticks := 0; draws := 0; requests := [] |}.

(** A world where the clock stands still and every draw is the same. *)
Definition frozen_world : World :=
  {| clock := fun _ => 1700000000000%Z;
     random_text := fun _ => "0.8";
     network := fun _ => None;
     ticks := 0; draws := 0; requests := [] |}.

(** The item that every round trip in [frozen_world] yields. *)
Definition frozen_item : Item :=
  {| id := "cf_1700000000000_8";
     sourceUrl := "https://coffee.alexflipnote.dev/random?t=1700000000000_8";
     displayUrl := "https://coffee.alexflipnote.dev/random?t=1700000000000_8";
     filename := "coffee_2023-11-14T22-13-20-000Z.jpg";
     addedAt := 1700000000000%Z |}.

(** Two items made in the same millisecond: one filename, two ids. *)
Definition tied_items : list Item :=
  [ sample_item "cf_1700000000000_8af1" "coffee_2023-11-14T22-13-20-000Z.jpg"
      1700000000000;
    sample_item "cf_1700000000000_c2d4" "coffee_2023-11-14T22-13-20-000Z.jpg"
      1700000000000 ].

(** A gallery of three items with a note, a favorite, and "abc!" typed in
    the search field. *)
Definition sample_items : list Item :=
  [ sample_item "cf_1700000000015_8af3" "coffee_2023-11-14T22-13-20-016Z.jpg"
      1700000000017;
    sample_item "cf_1700000000001_8af1" "coffee_2023-11-14T22-13-20-002Z.jpg"
      1700000000003;
    sample_item "cf_1700000000008_8af2" "coffee_2023-11-14T22-13-20-009Z.jpg"
      1700000000010 ].

Definition sample_storage : Storage :=
  toggleFavorite "cf_1700000000001_8af1"
    (setNote "cf_1700000000008_8af2" "  Iced Latte " empty_storage).

Definition sample_document : Document :=
  {| searchInput_value := "abc!";
     sortSelect_value := "newest";
     errorBox_hidden := true;
     errorBox_textContent := EmptyString;
     loadingBox_hidden := true;
     controls_disabled := false;
     countPill := "3 loaded";
     favPill := "1 favorites";
     resultsGrid := List.map (renderCard sample_storage) sample_items;
     emptyState_hidden := true |}.

Definition sample_app : App :=
  {| items := sample_items; query := EmptyString; sortMode := "newest";
     isLoading := false; localStorage := sample_storage;
     document := sample_document |}.

Definition sample_heap : Ref.heap := {[ 1%positive := sample_items ]}.

(** The sample gallery with "  Latte " typed in the search field. *)
Definition latte_app : App :=
  with_document (set_searchInput_value "  Latte ") sample_app.

Definition light_storage : Storage :=
  {| favorites := favorites sample_storage; notes := notes sample_storage;
     theme := Some "light" |}.

(* ================================================================= *)
(** * Properties *)

(** ** The embedding at concrete inputs *)

Example norm_folds_and_trims : norm "  Coffee_ABC.jpg " = "coffee_abc.jpg".
Proof. reflexivity. Qed.

Example trim_keeps_inner_space : Js.trim "  iced  latte  " = "iced  latte".
Proof. reflexivity. Qed.

Example includes_abc : Js.includes (norm "Coffee_ABC.jpg") (norm "abc") = true.
Proof. reflexivity. Qed.

Example includes_miss : Js.includes "coffee" "tea" = false.
Proof. reflexivity. Qed.

Example valid_searches :
  isValidSearch "coffee_2023 #1-a" = true /\ isValidSearch "   " = true.
Proof. split; reflexivity. Qed.

Example invalid_search : isValidSearch "abc!" = false.
Proof. reflexivity. Qed.

Example iso_text : Js.toISOString 1700000000000 = "2023-11-14T22:13:20.000Z".
Proof. reflexivity. Qed.

Example leap_day : Js.toISOString 951782400123 = "2000-02-29T00:00:00.123Z".
Proof. reflexivity. Qed.

Example first_item :
  (getRandomCoffeeItem (sample_world 9)).1
  = Returned
      {| id := "cf_1700000000007_8af1";
         sourceUrl := "https://coffee.alexflipnote.dev/random?t=1700000000000_8af0";
         displayUrl := "https://coffee.alexflipnote.dev/random?t=1700000000000_8af0";
         filename := "coffee_2023-11-14T22-13-20-014Z.jpg";
         addedAt := 1700000000021 |}.
Proof. reflexivity. Qed.

Example second_request_fails :
  (fetchBatch 6 (sample_world 1)).1 = Thrown "Failed to fetch"
  /\ length (requests (fetchBatch 6 (sample_world 1)).2) = 2.
Proof. split; reflexivity. Qed.

Example sort_newest :
  List.map addedAt (applySort (H := ordinal) empty_storage sample_items "newest")
  = [1700000000017; 1700000000010; 1700000000003]%Z.
Proof. reflexivity. Qed.

Example sort_az :
  List.map addedAt (applySort (H := ordinal) empty_storage sample_items "az")
  = [1700000000003; 1700000000010; 1700000000017]%Z.
Proof. reflexivity. Qed.

Example sort_fav :
  List.map addedAt (applySort (H := ordinal) sample_storage sample_items "fav")
  = [1700000000003; 1700000000017; 1700000000010]%Z.
Proof. by vm_compute. Qed.

Example search_by_note :
  List.map addedAt (applySearch sample_storage sample_items " LATTE ")
  = [1700000000010]%Z.
Proof. by vm_compute. Qed.

(** ** Strings *)

Section StringFacts.

Lemma is_empty_true (s : string) : Js.is_empty s = true <-> s = EmptyString.
Proof. destruct s; simpl; split; congruence. Qed.

Lemma is_empty_false (s : string) : Js.is_empty s = false <-> s <> EmptyString.
Proof. destruct s; simpl; split; congruence. Qed.

Lemma trimEnd_empty (s : string) :
  Js.trimEnd s = EmptyString <-> Js.all_chars Js.is_white_space s = true.
Proof.
  induction s as [|c s IH]; simpl; [tauto|].
  destruct (Js.is_white_space c); simpl.
  - destruct (Js.trimEnd s) eqn:E; simpl.
    + split; intros _; [apply IH|]; reflexivity.
    + split; [discriminate|]. intros H. apply IH in H. discriminate.
  - split; discriminate.
Qed.

Lemma trimStart_all (s : string) :
  Js.all_chars Js.is_white_space (Js.trimStart s)
  = Js.all_chars Js.is_white_space s.
Proof.
  induction s as [|c s IH]; simpl; [reflexivity|].
  destruct (Js.is_white_space c) eqn:E; simpl; [exact IH|].
  rewrite E. reflexivity.
Qed.

(** A string trims to nothing exactly when it is empty or whitespace
    only. *)
Lemma trim_empty (s : string) :
  Js.trim s = EmptyString <-> Js.all_chars Js.is_white_space s = true.
Proof. unfold Js.trim. rewrite trimEnd_empty, trimStart_all. tauto. Qed.

Lemma trimStart_head (s : string) :
  match Js.trimStart s with
  | EmptyString => True
  | String c _ => Js.is_white_space c = false
  end.
Proof.
  induction s as [|c s IH]; simpl; [exact I|].
  destruct (Js.is_white_space c) eqn:E; [exact IH | exact E].
Qed.

Lemma trimStart_fixed (s : string) :
  match s with
  | EmptyString => True
  | String c _ => Js.is_white_space c = false
  end -> Js.trimStart s = s.
Proof. destruct s as [|c s]; simpl; [reflexivity|]. intros ->. reflexivity. Qed.

Lemma trimEnd_head (s : string) :
  match s with
  | EmptyString => True
  | String c _ => Js.is_white_space c = false
  end ->
  match Js.trimEnd s with
  | EmptyString => True
  | String c _ => Js.is_white_space c = false
  end.
Proof.
  destruct s as [|c s]; simpl; [tauto|]. intros E. rewrite E. simpl. exact E.
Qed.

Lemma trimEnd_idem (s : string) : Js.trimEnd (Js.trimEnd s) = Js.trimEnd s.
Proof.
  induction s as [|c s IH]; simpl; [reflexivity|].
  destruct (Js.is_white_space c && Js.is_empty (Js.trimEnd s)) eqn:E;
    [reflexivity|].
  simpl. rewrite IH, E. reflexivity.
Qed.

(** Trimming a trimmed string changes nothing. *)
Lemma trim_idem (s : string) : Js.trim (Js.trim s) = Js.trim s.
Proof.
  unfold Js.trim.
  rewrite (trimStart_fixed (Js.trimEnd (Js.trimStart s))).
  - apply trimEnd_idem.
  - apply trimEnd_head, trimStart_head.
Qed.

End StringFacts.

(* ================================================================= *)
(** ** Favorites and notes *)

Section StorageFacts.

Implicit Types (ls : Storage) (note : string).

Lemma getFavoritesMap_set ls (m : gmap string unit) :
  getFavoritesMap (setFavoritesMap m ls) = m.
Proof. reflexivity. Qed.

Lemma getNotesMap_set ls (m : gmap string string) :
  getNotesMap (setNotesMap m ls) = m.
Proof. reflexivity. Qed.

(** One toggle flips the favorite status of the id. *)
Lemma toggleFavorite_flips (k : string) ls :
  isFavorite k (toggleFavorite k ls) = negb (isFavorite k ls).
Proof.
  unfold isFavorite, toggleFavorite. rewrite getFavoritesMap_set.
  destruct (getFavoritesMap ls !! k) eqn:E.
  - by rewrite lookup_delete_eq.
  - by rewrite lookup_insert_eq.
Qed.

Lemma toggleFavorite_map (k : string) ls :
  getFavoritesMap (toggleFavorite k ls)
  = match getFavoritesMap ls !! k with
    | Some _ => delete k (getFavoritesMap ls)
    | None => <[k := tt]> (getFavoritesMap ls)
    end.
Proof. reflexivity. Qed.

Lemma setNote_map (k : string) note ls :
  getNotesMap (setNote k note ls)
  = if Js.is_empty (Js.trim note) then delete k (getNotesMap ls)
    else <[k := Js.trim note]> (getNotesMap ls).
Proof.
  unfold setNote. rewrite getNotesMap_set.
  by destruct (Js.is_empty (Js.trim note)).
Qed.

End StorageFacts.

(** C7. A note that is empty or whitespace only is not stored: the entry of
    the id is removed and [getNote] answers the empty string.  A note with
    other content is stored as its trimmed text, which is not empty and which
    [getNote] gives back. *)
Theorem setNote_getNote (k : string) (note : string) (ls : Storage) :
  (Js.all_chars Js.is_white_space note = true ->
     getNotesMap (setNote k note ls) !! k = None
     /\ getNote k (setNote k note ls) = EmptyString)
  /\ (Js.all_chars Js.is_white_space note = false ->
        getNotesMap (setNote k note ls) !! k = Some (Js.trim note)
        /\ getNote k (setNote k note ls) = Js.trim note
        /\ Js.trim note <> EmptyString
        /\ Js.trim (Js.trim note) = Js.trim note).
Proof.
  unfold getNote. rewrite setNote_map. split; intros Hws.
  - apply trim_empty in Hws. rewrite Hws. simpl.
    by rewrite lookup_delete_eq.
  - assert (Hne : Js.trim note <> EmptyString).
    { intros E. apply trim_empty in E. congruence. }
    apply is_empty_false in Hne as Hf. rewrite Hf, lookup_insert_eq.
    auto using trim_idem.
Qed.

(** C8. Toggling the favorite of an id twice gives back the favorites map
    that was there, and with it the id's favorite status. *)
Theorem toggleFavorite_twice (k : string) (ls : Storage) :
  getFavoritesMap (toggleFavorite k (toggleFavorite k ls)) = getFavoritesMap ls
  /\ isFavorite k (toggleFavorite k (toggleFavorite k ls)) = isFavorite k ls.
Proof.
  split.
  - rewrite !toggleFavorite_map.
    destruct (getFavoritesMap ls !! k) as [[]|] eqn:E.
    + rewrite lookup_delete_eq, insert_delete_eq. by apply insert_id.
    + rewrite lookup_insert_eq, delete_insert_eq. by apply delete_id.
  - rewrite !toggleFavorite_flips. apply negb_involutive.
Qed.

(** C9. [toggleFavorite k] leaves the favorites entry of every other id as
    it was, and [setNote k] the notes entry of every other id; neither
    touches the other map nor the theme. *)
Theorem storage_frame (k other : string) (note : string) (ls : Storage) :
  other <> k ->
  (getFavoritesMap (toggleFavorite k ls) !! other = getFavoritesMap ls !! other
   /\ notes (toggleFavorite k ls) = notes ls
   /\ theme (toggleFavorite k ls) = theme ls)
  /\ (getNotesMap (setNote k note ls) !! other = getNotesMap ls !! other
      /\ favorites (setNote k note ls) = favorites ls
      /\ theme (setNote k note ls) = theme ls).
Proof.
  intros Hne. split; (split; [|by split]).
  - rewrite toggleFavorite_map.
    destruct (getFavoritesMap ls !! k).
    + by rewrite lookup_delete_ne.
    + by rewrite lookup_insert_ne.
  - rewrite setNote_map.
    destruct (Js.is_empty (Js.trim note)).
    + by rewrite lookup_delete_ne.
    + by rewrite lookup_insert_ne.
Qed.

(* ================================================================= *)
(** ** Search *)

Section SearchFacts.

Lemma append_cons (c : ascii) (s t : string) :
  String c s +:+ t = String c (s +:+ t).
Proof. reflexivity. Qed.

Lemma append_empty_l (s : string) : EmptyString +:+ s = s.
Proof. reflexivity. Qed.

Lemma startsWith_spec (p s : string) :
  Js.startsWith s p = true <-> exists post, s = p +:+ post.
Proof.
  revert s. induction p as [|a p IH]; intros s; simpl.
  - split; [intros _; by exists s | reflexivity].
  - destruct s as [|b s].
    + split; [discriminate | intros [post E]; discriminate].
    + rewrite andb_true_iff, Ascii.eqb_eq, IH. split.
      * intros [-> [post ->]]. by exists post.
      * intros [post E]. rewrite append_cons in E. injection E as -> ->.
        eauto.
Qed.

(** [includes] is substring containment. *)
Lemma includes_spec (hay needle : string) :
  Js.includes hay needle = true <-> occurs needle hay.
Proof.
  unfold occurs. induction hay as [|c hay IH].
  - cbn [Js.includes]. rewrite orb_false_r, startsWith_spec. split.
    + intros [post E]. by exists EmptyString, post.
    + intros [[|? pre] [post E]]; [eauto | discriminate].
  - cbn [Js.includes]. rewrite orb_true_iff, startsWith_spec, IH. split.
    + intros [[post E] | [pre [post E]]].
      * by exists EmptyString, post.
      * exists (String c pre), post. by rewrite append_cons, E.
    + intros [[|c' pre] [post E]].
      * left. eauto.
      * right. rewrite append_cons in E. injection E as -> ->. eauto.
Qed.

Lemma matches_spec (m : gmap string string) (qq : string) (it : Item) :
  matches m qq it = true
  <-> occurs qq (norm (filename it))
      \/ occurs qq (norm (default EmptyString (m !! id it))).
Proof.
  unfold matches. rewrite orb_true_iff, !includes_spec.
  by destruct (m !! id it).
Qed.

Lemma filter_sublist {A} (f : A -> bool) (l : list A) :
  List.filter f l `sublist_of` l.
Proof.
  induction l as [|x l IH]; simpl; [constructor|].
  destruct (f x); by constructor.
Qed.

End SearchFacts.

(** C4. When the normalized query is empty the list comes back as it is.
    Otherwise the result is the list filtered by a test that an item passes
    if and only if the normalized query occurs in its normalized filename or
    in its normalized note, the note of an id without an entry being the
    empty string. *)
Theorem applySearch_spec (ls : Storage) (l : list Item) (q : string) :
  (norm q = EmptyString -> applySearch ls l q = l)
  /\ (norm q <> EmptyString ->
        exists keep : Item -> bool,
          (forall it : Item,
              keep it = true
              <-> occurs (norm q) (norm (filename it))
                  \/ occurs (norm q)
                       (norm (default EmptyString (getNotesMap ls !! id it))))
          /\ applySearch ls l q = List.filter keep l
          /\ (forall it : Item,
                 In it (applySearch ls l q) <-> In it l /\ keep it = true)).
Proof.
  unfold applySearch. split; intros Hq.
  - by rewrite Hq.
  - apply is_empty_false in Hq. rewrite Hq.
    exists (matches (getNotesMap ls) (norm q)).
    split; [intros it; apply matches_spec|].
    split; [reflexivity|]. intros it. apply filter_In.
Qed.

(** C10. The result of the search is a subsequence of the list it was
    given: it keeps some of the items, each as often as it was there and
    in the order they had, and adds none. *)
Theorem applySearch_sublist (ls : Storage) (l : list Item) (q : string) :
  applySearch ls l q `sublist_of` l.
Proof.
  unfold applySearch. destruct (Js.is_empty (norm q)).
  - reflexivity.
  - apply filter_sublist.
Qed.

(* ================================================================= *)
(** ** Rejected search input *)

Section ValidationFacts.

Lemma all_chars_false (p : ascii -> bool) (s : string) :
  Js.all_chars p s = false <-> exists c, In c (chars s) /\ p c = false.
Proof.
  unfold chars. induction s as [|a s IH]; simpl.
  - split; [discriminate | intros [c [[] _]]].
  - rewrite andb_false_iff, IH. split.
    + intros [E | [c [Hin E]]]; eauto.
    + intros [c [[-> | Hin] E]]; eauto.
Qed.

Lemma length_zero_empty (s : string) :
  (String.length s =? 0)%nat = Js.is_empty s.
Proof. by destruct s. Qed.

(** A trimmed text that is not empty and holds a character outside the
    class is not a valid search. *)
Lemma isValidSearch_rejects (s : string) :
  Js.trim s <> EmptyString ->
  (exists c, In c (chars (Js.trim s)) /\ search_char c = false) ->
  isValidSearch (Js.trim s) = false.
Proof.
  intros Hne Hbad. unfold isValidSearch, search_regex_test.
  rewrite trim_idem, length_zero_empty.
  apply is_empty_false in Hne. rewrite Hne. simpl.
  by apply all_chars_false.
Qed.

End ValidationFacts.

(** C6. When the trimmed search input is not empty and holds a character
    that is not a letter, a digit, a space, [-], [_] or [#], the handler
    keeps the query, the items, the sort mode and what the grid shows, so
    the derived view is the one of before, and the error box is visible
    with the message about invalid input. *)
Theorem onSearchInput_rejects `{Collator} (app : App) :
  let raw := searchInput_value (document app) in
  Js.trim raw <> EmptyString ->
  (exists c : ascii, In c (chars (Js.trim raw)) /\ search_char c = false) ->
  let app' := onSearchInput app in
  query app' = query app
  /\ items app' = items app
  /\ sortMode app' = sortMode app
  /\ localStorage app' = localStorage app
  /\ view app' = view app
  /\ resultsGrid (document app') = resultsGrid (document app)
  /\ emptyState_hidden (document app') = emptyState_hidden (document app)
  /\ errorBox_hidden (document app') = false
  /\ errorBox_textContent (document app') = search_error
  /\ search_error <> EmptyString.
Proof.
  intros raw Hne Hbad app'. subst app'. unfold onSearchInput.
  fold raw. rewrite (isValidSearch_rejects raw Hne Hbad). simpl.
  repeat split; discriminate.
Qed.

(* ================================================================= *)
(** ** Sorting works on a copy *)

Section CopyFacts.

Lemma alloc_fresh (v : list Item) (h : Ref.heap) :
  h !! (Ref.alloc v h).1 = None.
Proof.
  unfold Ref.alloc. simpl. apply not_elem_of_dom, is_fresh.
Qed.

Lemma unknown_mode `{Collator} (ls : Storage) (l : list Item) (mode : string) :
  mode <> "newest" -> mode <> "az" -> mode <> "za" -> mode <> "fav" ->
  applySort ls l mode = l.
Proof.
  intros H1 H2 H3 H4. unfold applySort.
  apply String.eqb_neq in H1, H2, H3, H4. by rewrite H1, H2, H3, H4.
Qed.

(** The array that [Ref.applySort] returns holds what [applySort] computes
    from the contents of the array it was given. *)
Lemma applySort_contents `{Collator} (ls : Storage) (l : positive)
  (mode : string) (h : Ref.heap) :
  (Ref.applySort ls l mode h).2 !! (Ref.applySort ls l mode h).1
  = Some (applySort ls (Ref.contents h l) mode).
Proof.
  unfold Ref.applySort, applySort, Ref.alloc, Ref.sort_in_place, Ref.contents.
  repeat case_match; simpl; by rewrite ?lookup_insert_eq.
Qed.

Lemma applySort_old `{Collator} (ls : Storage) (l : positive) (mode : string)
  (h : Ref.heap) (a : positive) :
  is_Some (h !! a) -> (Ref.applySort ls l mode h).2 !! a = h !! a.
Proof.
  intros [v Hv].
  assert (Hne : (Ref.alloc (Ref.contents h l) h).1 <> a).
  { intros <-. rewrite alloc_fresh in Hv. discriminate. }
  unfold Ref.applySort, Ref.sort_in_place. unfold Ref.alloc in *. simpl in *.
  repeat case_match; simpl; by rewrite ?lookup_insert_ne.
Qed.

(** With an empty normalized query [Ref.applySearch] hands back the
    reference it was given; otherwise a new array. *)
Lemma applySearch_alias (ls : Storage) (l : positive) (q : string)
  (h : Ref.heap) :
  norm q = EmptyString -> Ref.applySearch ls l q h = (l, h).
Proof. intros Hq. unfold Ref.applySearch. by rewrite Hq. Qed.

Lemma applySearch_contents (ls : Storage) (l : positive) (q : string)
  (h : Ref.heap) :
  Ref.contents (Ref.applySearch ls l q h).2 (Ref.applySearch ls l q h).1
  = applySearch ls (Ref.contents h l) q.
Proof.
  unfold Ref.applySearch, applySearch.
  destruct (Js.is_empty (norm q)); [done|].
  unfold Ref.alloc, Ref.contents at 1. simpl. by rewrite lookup_insert_eq.
Qed.

End CopyFacts.

(** C5. [applySort] writes to no array that existed before the call, so
    the array it is given keeps its contents; what it returns is a new
    array.  For a mode other than "newest", "az", "za" and "fav" the new
    array holds the items of the input, in the input's order. *)
Theorem applySort_copy `{Collator} (ls : Storage) (l : positive) (mode : string)
  (h : Ref.heap) (v : list Item) :
  h !! l = Some v ->
  let out := (Ref.applySort ls l mode h).1 in
  let h' := (Ref.applySort ls l mode h).2 in
  h' !! l = Some v
  /\ (forall a : positive, is_Some (h !! a) -> h' !! a = h !! a)
  /\ h !! out = None
  /\ out <> l
  /\ h' !! out = Some (applySort ls v mode)
  /\ (mode <> "newest" -> mode <> "az" -> mode <> "za" -> mode <> "fav" ->
      h' !! out = Some v /\ applySort ls v mode = v).
Proof.
  intros Hl out h'. subst out h'.
  assert (Hc : Ref.contents h l = v) by (unfold Ref.contents; by rewrite Hl).
  assert (Hfresh : h !! (Ref.applySort ls l mode h).1 = None).
  { replace (Ref.applySort ls l mode h).1 with (Ref.alloc (Ref.contents h l) h).1.
    - apply alloc_fresh.
    - unfold Ref.applySort, Ref.alloc. by repeat case_match. }
  split; [rewrite applySort_old; eauto|].
  split; [intros a; apply applySort_old|].
  split; [exact Hfresh|].
  split; [intros E; rewrite E, Hl in Hfresh; discriminate|].
  rewrite applySort_contents, Hc.
  split; [reflexivity|]. intros H1 H2 H3 H4.
  by rewrite unknown_mode.
Qed.

(* ================================================================= *)
(** ** Batches *)

Section BatchFacts.

Lemma getRandomCoffeeItem_ok (w : World) :
  network w (length (requests w)) = None ->
  getRandomCoffeeItem w = (Returned (round_trip_item w 0), after 1 w).
Proof.
  intros Hnet.
  unfold getRandomCoffeeItem, probeApiReachable, makeId, makeFilename.
  unfold mbind, async_bind, mret, async_ret, fetch, Date_now,
    Math_random_toString16.
  cbn -[Js.number_text Js.toISOString RANDOM_IMAGE_URL String.append].
  rewrite Hnet. reflexivity.
Qed.

Lemma getRandomCoffeeItem_fails (w : World) (m : string) :
  network w (length (requests w)) = Some m ->
  exists w', getRandomCoffeeItem w = (Thrown m, w').
Proof.
  intros Hnet.
  unfold getRandomCoffeeItem, probeApiReachable.
  unfold mbind, async_bind, mret, async_ret, fetch, Date_now,
    Math_random_toString16.
  cbn -[Js.number_text Js.toISOString RANDOM_IMAGE_URL String.append].
  rewrite Hnet. eauto.
Qed.

Lemma round_trip_url_after (w : World) (i : nat) :
  round_trip_url (after 1 w) i = round_trip_url w (S i).
Proof.
  unfold round_trip_url, after.
  cbn [clock random_text ticks draws].
  replace (4 * i + (4 * 1 + ticks w)) with (4 * S i + ticks w) by lia.
  by replace (2 * i + (2 * 1 + draws w)) with (2 * S i + draws w) by lia.
Qed.

Lemma round_trip_item_after (w : World) (i : nat) :
  round_trip_item (after 1 w) i = round_trip_item w (S i).
Proof.
  unfold round_trip_item, id_source.
  rewrite round_trip_url_after. unfold after.
  cbn [clock random_text ticks draws].
  replace (4 * i + 1 + (4 * 1 + ticks w)) with (4 * S i + 1 + ticks w) by lia.
  replace (4 * i + 2 + (4 * 1 + ticks w)) with (4 * S i + 2 + ticks w) by lia.
  replace (4 * i + 3 + (4 * 1 + ticks w)) with (4 * S i + 3 + ticks w) by lia.
  by replace (2 * i + 1 + (2 * 1 + draws w)) with (2 * S i + 1 + draws w)
    by lia.
Qed.

Lemma after_after (n : nat) (w : World) :
  after n (after 1 w) = after (S n) w.
Proof.
  unfold after. cbn [clock random_text network ticks draws requests].
  f_equal; [lia | lia |].
  rewrite <- app_assoc. f_equal. cbn [seq List.map app]. f_equal.
  rewrite <- seq_shift, List.map_map.
  apply List.map_ext. intros i. apply round_trip_url_after.
Qed.

Lemma length_requests_after (n : nat) (w : World) :
  length (requests (after n w)) = n + length (requests w).
Proof.
  unfold after. cbn [requests].
  rewrite length_app, length_map, length_seq. lia.
Qed.

(** When the next [n] requests resolve, the loop returns the items of
    the [n] round trips, appended in the order of the round trips. *)
Lemma fetchBatch_loop_ok (n : nat) :
  forall (out : list Item) (w : World),
    (forall k, k < n -> network w (k + length (requests w)) = None) ->
    fetchBatch_loop n out w
    = (Returned (out ++ List.map (round_trip_item w) (seq 0 n)), after n w).
Proof.
  induction n as [|n IH]; intros out w Hnet.
  - cbn [fetchBatch_loop seq List.map]. rewrite app_nil_r.
    unfold mret, async_ret, after. destruct w; simpl.
    by rewrite app_nil_r.
  - cbn [fetchBatch_loop]. unfold mbind, async_bind.
    rewrite getRandomCoffeeItem_ok by (apply (Hnet 0); lia).
    rewrite IH.
    + rewrite after_after, <- app_assoc. do 3 f_equal.
      cbn [seq List.map app]. f_equal.
      rewrite <- seq_shift, List.map_map.
      apply List.map_ext. intros i. apply round_trip_item_after.
    + intros k Hk. rewrite length_requests_after.
      replace (k + (1 + length (requests w)))
        with (S k + length (requests w)) by lia.
      apply Hnet. lia.
Qed.

(** When one of the next [n] requests is rejected, the loop throws. *)
Lemma fetchBatch_loop_fails (n : nat) :
  forall (out : list Item) (w : World) (k : nat),
    k < n -> is_Some (network w (k + length (requests w))) ->
    exists m w', fetchBatch_loop n out w = (Thrown m, w').
Proof.
  induction n as [|n IH]; intros out w k Hk Hfail; [lia|].
  cbn [fetchBatch_loop]. unfold mbind, async_bind.
  destruct (network w (length (requests w))) as [m|] eqn:Hfirst.
  - destruct (getRandomCoffeeItem_fails w m Hfirst) as [w' ->]. eauto.
  - rewrite getRandomCoffeeItem_ok by done.
    destruct k as [|k].
    { simpl in Hfail. rewrite Hfirst in Hfail. by destruct Hfail. }
    apply (IH _ _ k); [lia|].
    rewrite length_requests_after.
    by replace (k + (1 + length (requests w)))
      with (S k + length (requests w)) by lia.
Qed.

End BatchFacts.

Section BrewFacts.

Context `{Collator}.

(** A count that is not a number, or not above zero, is refused before
    anything else happens. *)
Lemma brew_invalid_count (count : Value) (app : App) (w : World) :
  count = NotNum \/ (exists n, count = Num n /\ (n <= 0)%Z) ->
  brew count app w = (showError count_error app, w).
Proof.
  intros [-> | (n & -> & Hn)]; [done|].
  unfold brew. apply Z.leb_le in Hn. by rewrite Hn.
Qed.


End BrewFacts.

(** C1. When a request of the batch is rejected, be it the first, the
    second or a later one, [fetchBatch] throws and [brew] leaves the items
    as they were; it shows the failure in the error box and ends the
    loading state. *)
Theorem brew_failed_batch `{Collator} (n : Z) (app : App) (w : World) (k : nat) :
  k < Z.to_nat n ->
  is_Some (network w (length (requests w) + k)) ->
  let app' := (brew (Num n) app w).1 in
  (exists m : string, (fetchBatch n w).1 = Thrown m)
  /\ items app' = items app
  /\ errorBox_hidden (document app') = false
  /\ isLoading app' = false.
Proof.
  intros Hk Hfail app'. subst app'.
  rewrite Nat.add_comm in Hfail.
  destruct (fetchBatch_loop_fails (Z.to_nat n) [] w k Hk Hfail) as (m & w' & E).
  unfold brew, fetchBatch.
  assert (Hpos : (n <=? 0)%Z = false) by (apply Z.leb_gt; lia).
  rewrite Hpos, E. simpl. split; [eauto|]. repeat split.
Qed.

(* ================================================================= *)
(** ** Ids *)

Section IdFacts.

Lemma uint_text_no_underscore (d : Decimal.uint) :
  Js.all_chars not_underscore (NilEmpty.string_of_uint d) = true.
Proof. induction d; simpl; auto. Qed.

Lemma number_text_no_underscore (z : Z) :
  Js.all_chars not_underscore (Js.number_text z) = true.
Proof.
  unfold Js.number_text, NilZero.string_of_int, NilZero.string_of_uint.
  destruct (Z.to_int z) as [d|d]; destruct d; simpl;
    auto using uint_text_no_underscore.
Qed.

Lemma number_text_inj (a b : Z) :
  Js.number_text a = Js.number_text b -> a = b.
Proof.
  unfold Js.number_text. intros E.
  assert (Hnn : forall z, Z.to_int z <> Decimal.Pos Decimal.Nil
                          /\ Z.to_int z <> Decimal.Neg Decimal.Nil).
  { intros [|p|p]; simpl; split; try discriminate;
      intros [= Hp]; by apply DecimalPos.Unsigned.to_uint_nonnil in Hp. }
  apply DecimalZ.to_int_inj.
  assert (Some (Z.to_int a) = Some (Z.to_int b)) as [= ->]; [|done].
  rewrite <- (NilZero.isi (Z.to_int a)), <- (NilZero.isi (Z.to_int b));
    try apply Hnn.
  by rewrite E.
Qed.

(** A text is cut at its first underscore in one way only. *)
Lemma cut_at_underscore (a1 a2 b1 b2 : string) :
  Js.all_chars not_underscore a1 = true ->
  Js.all_chars not_underscore a2 = true ->
  a1 +:+ String "_" b1 = a2 +:+ String "_" b2 ->
  a1 = a2 /\ b1 = b2.
Proof.
  revert a2. induction a1 as [|c a1 IH]; intros [|c2 a2] H1 H2 E.
  - by injection E.
  - rewrite append_cons in E. injection E as <- _. discriminate.
  - rewrite append_cons in E. injection E as -> _. discriminate.
  - rewrite !append_cons in E. injection E as -> E.
    simpl in H1, H2. apply andb_true_iff in H1 as [_ H1], H2 as [_ H2].
    destruct (IH a2 H1 H2 E) as [-> ->]. done.
Qed.

(** Two ids are equal only when [makeId] read the same clock value and
    the same random digits. *)
Lemma id_text_inj (p q : Z * string) : id_text p = id_text q -> p = q.
Proof.
  destruct p as [a r], q as [b s]. unfold id_text. simpl. intros E.
  injection E as E.
  apply cut_at_underscore in E as [E ->];
    try apply number_text_no_underscore.
  apply number_text_inj in E as ->. done.
Qed.

Lemma NoDup_map_id_text (l : list (Z * string)) :
  NoDup (List.map id_text l) <-> NoDup l.
Proof.
  change (List.map id_text l) with (id_text <$> l).
  apply NoDup_fmap. intros p q. apply id_text_inj.
Qed.

End IdFacts.

(** C2, as the code has it.  When the [n] requests of the batch resolve,
    [fetchBatch n] returns [n] items, the [i]-th being the item of the
    [i]-th round trip, and the URLs it requested are, in order, the
    [sourceUrl]s of the items.  The ids are pairwise distinct exactly when
    no two calls of [makeId] read the same clock value together with the
    same random digits. *)
Theorem fetchBatch_success (n : Z) (w : World) :
  (0 < n)%Z ->
  (forall k : nat, k < Z.to_nat n -> network w (length (requests w) + k) = None) ->
  exists (batch : list Item) (w' : World),
    fetchBatch n w = (Returned batch, w')
    /\ Z.of_nat (length batch) = n
    /\ batch = List.map (round_trip_item w) (seq 0 (Z.to_nat n))
    /\ (forall i : nat, i < Z.to_nat n -> batch !! i = Some (round_trip_item w i))
    /\ requests w' = requests w ++ List.map sourceUrl batch
    /\ (NoDup (List.map id batch)
        <-> NoDup (List.map (id_source w) (seq 0 (Z.to_nat n)))).
Proof.
  intros Hn Hnet.
  exists (List.map (round_trip_item w) (seq 0 (Z.to_nat n))), (after (Z.to_nat n) w).
  split.
  { unfold fetchBatch. rewrite fetchBatch_loop_ok; [done|].
    intros k Hk. rewrite Nat.add_comm. by apply Hnet. }
  split; [rewrite length_map, length_seq; lia|].
  split; [done|].
  split.
  { intros i Hi. change (List.map ?f ?l) with (f <$> l).
    rewrite list_lookup_fmap, lookup_seq_lt by done. done. }
  split.
  { unfold after. cbn [requests]. by rewrite List.map_map. }
  rewrite List.map_map.
  change (fun x => id (round_trip_item w x))
    with (fun x => id_text (id_source w x)).
  rewrite <- (List.map_map (id_source w) id_text).
  apply NoDup_map_id_text.
Qed.

(** C2, the counterexample.  With the clock standing still and both draws
    equal, a batch of two succeeds and its two items carry the same id. *)
Lemma fetchBatch_same_ids :
  (fetchBatch 2 frozen_world).1 = Returned [frozen_item; frozen_item]
  /\ ~ NoDup (List.map id [frozen_item; frozen_item]).
Proof.
  split; [by vm_compute|].
  intros Hnd. inversion Hnd as [|x l Hnotin _]; subst.
  apply Hnotin. by left.
Qed.

(* ================================================================= *)
(** ** Sorting *)

Section SortFacts.

Context {A : Type} (cmp : A -> A -> Z).

Lemma strongly_sorted_impl (R S : A -> A -> Prop) (l : list A) :
  (forall a b, R a b -> S a b) -> StronglySorted R l -> StronglySorted S l.
Proof.
  intros HRS. induction 1 as [|x l _ IH Hx]; constructor; [done|].
  eapply Forall_impl; [exact Hx|]. intros y. apply HRS.
Qed.

Lemma insert_perm (x : A) (l : list A) : Js.insert cmp x l ≡ₚ x :: l.
Proof.
  induction l as [|y l IH]; simpl; [done|].
  destruct (cmp x y <=? 0)%Z; [done|].
  rewrite IH. apply perm_swap.
Qed.

Lemma sort_perm (l : list A) : Js.sort cmp l ≡ₚ l.
Proof.
  induction l as [|x l IH]; simpl; [done|].
  by rewrite insert_perm, IH.
Qed.

(** An element that compares greater than all of a list goes to its
    end. *)
Lemma insert_last (x : A) (l : list A) :
  Forall (fun y => (0 < cmp x y)%Z) l -> Js.insert cmp x l = l ++ [x].
Proof.
  induction 1 as [|y l Hy _ IH]; simpl; [done|].
  destruct (Z.leb_spec (cmp x y) 0); [lia|]. by rewrite IH.
Qed.

Hypothesis cmp_total : forall a b, (cmp a b <= 0 \/ cmp b a <= 0)%Z.
Hypothesis cmp_trans :
  forall a b c, (cmp a b <= 0 -> cmp b c <= 0 -> cmp a c <= 0)%Z.

Lemma insert_sorted (x : A) (l : list A) :
  StronglySorted (fun a b => (cmp a b <= 0)%Z) l ->
  StronglySorted (fun a b => (cmp a b <= 0)%Z) (Js.insert cmp x l).
Proof.
  induction 1 as [|y l Hs IH Hy]; simpl.
  - repeat constructor.
  - destruct (Z.leb_spec (cmp x y) 0) as [Hle|Hgt].
    + constructor; [by constructor|]. constructor; [done|].
      eapply Forall_impl; [exact Hy|]. intros z Hz. simpl in Hz. eauto.
    + constructor; [done|].
      eapply Permutation_Forall; [symmetry; apply insert_perm|].
      constructor; [|done]. destruct (cmp_total x y); lia.
Qed.

Lemma sort_sorted (l : list A) :
  StronglySorted (fun a b => (cmp a b <= 0)%Z) (Js.sort cmp l).
Proof.
  induction l as [|x l IH]; simpl; [constructor|].
  by apply insert_sorted.
Qed.

End SortFacts.

Section CollationFacts.

Context `{C : Collator} (HC : consistent C).

Lemma lc_flip (a b : string) :
  (localeCompare a b < 0)%Z <-> (0 < localeCompare b a)%Z.
Proof. apply HC. Qed.

Lemma lc_trans (a b c : string) :
  (localeCompare a b <= 0)%Z -> (localeCompare b c <= 0)%Z ->
  (localeCompare a c <= 0)%Z.
Proof. apply HC. Qed.

Lemma lc_lt_trans (a b c : string) :
  (localeCompare a b < 0)%Z -> (localeCompare b c < 0)%Z ->
  (localeCompare a c < 0)%Z.
Proof.
  intros Hab Hbc.
  assert (Hac : (localeCompare a c <= 0)%Z) by (apply (lc_trans a b c); lia).
  destruct (Z.eq_dec (localeCompare a c) 0%Z) as [E|]; [|lia].
  assert (Hca : (localeCompare c a <= 0)%Z).
  { destruct (Z_lt_le_dec 0%Z (localeCompare c a)) as [Hlt|]; [|done].
    apply lc_flip in Hlt. lia. }
  assert (Hcb : (localeCompare c b <= 0)%Z) by (apply (lc_trans c a b); lia).
  apply lc_flip in Hbc. lia.
Qed.

Lemma insert_strict (x : Item) (t : list Item) :
  StronglySorted (fun a b => (cmp_az a b < 0)%Z) t ->
  Forall (fun y => cmp_az x y <> 0%Z) t ->
  StronglySorted (fun a b => (cmp_az a b < 0)%Z) (Js.insert cmp_az x t).
Proof.
  induction 1 as [|y t Hs IH Hy]; intros Hx; simpl.
  - repeat constructor.
  - apply Forall_cons_1 in Hx as [Hxy Hxt].
    destruct (Z.leb_spec (cmp_az x y) 0) as [Hle|Hgt].
    + constructor; [by constructor|]. constructor; [lia|].
      eapply Forall_impl; [exact Hy|]. intros z Hz. simpl in Hz.
      unfold cmp_az in *. apply (lc_lt_trans _ (filename y)); lia.
    + constructor; [by apply IH|].
      eapply Permutation_Forall; [symmetry; apply insert_perm|].
      constructor; [|done]. unfold cmp_az in *. by apply lc_flip.
Qed.

(** Without ties, "az" leaves the filenames strictly ascending. *)
Lemma sort_az_strict (l : list Item) :
  no_ties l ->
  StronglySorted (fun a b => (cmp_az a b < 0)%Z) (Js.sort cmp_az l).
Proof.
  induction 1 as [|x l Hx _ IH]; simpl; [constructor|].
  apply insert_strict; [done|].
  eapply Permutation_Forall; [symmetry; apply sort_perm | exact Hx].
Qed.

(** "za" turns a strictly ascending list around. *)
Lemma sort_za_rev (s : list Item) :
  StronglySorted (fun a b => (cmp_az a b < 0)%Z) s ->
  Js.sort cmp_za s = rev s.
Proof.
  induction 1 as [|x s _ IH Hx]; simpl; [done|].
  rewrite IH. apply insert_last.
  eapply Permutation_Forall; [apply Permutation_rev|].
  eapply Forall_impl; [exact Hx|]. intros y Hy. simpl in Hy.
  unfold cmp_az, cmp_za in *. by apply lc_flip.
Qed.

End CollationFacts.

Section TieFacts.

Context `{Collator}.

(** Two items whose filenames compare equal keep their order through
    "az" and then "za": the sort is stable. *)
Lemma tied_pair_keeps_order (ls : Storage) (a b : Item) :
  localeCompare (filename a) (filename b) = 0%Z ->
  localeCompare (filename b) (filename a) = 0%Z ->
  applySort ls (applySort ls [a; b] "az") "za" = [a; b].
Proof.
  intros Hab Hba. unfold applySort. simpl. unfold cmp_az, cmp_za.
  rewrite Hab. simpl. by rewrite Hba.
Qed.

Lemma cmp_newest_total (a b : Item) :
  (cmp_newest a b <= 0 \/ cmp_newest b a <= 0)%Z.
Proof. unfold cmp_newest. lia. Qed.

Lemma cmp_newest_trans (a b c : Item) :
  (cmp_newest a b <= 0 -> cmp_newest b c <= 0 -> cmp_newest a c <= 0)%Z.
Proof. unfold cmp_newest. lia. Qed.

End TieFacts.

(** C3, as the code has it.  Under a consistent collation, and when no two
    items of the list have filenames that compare equal, "za" after "az"
    is the "az" result reversed.  "newest" rearranges the list so that
    [addedAt] never increases from an item to a later one. *)
Theorem sort_az_za_newest `{C : Collator} (ls : Storage) (l : list Item) :
  (consistent C -> no_ties l ->
   applySort ls (applySort ls l "az") "za" = rev (applySort ls l "az"))
  /\ applySort ls l "newest" ≡ₚ l
  /\ StronglySorted (fun a b => (addedAt b <= addedAt a)%Z)
       (applySort ls l "newest").
Proof.
  unfold applySort. simpl. split; [|split].
  - intros HC Hl. by apply sort_za_rev, sort_az_strict.
  - apply sort_perm.
  - eapply strongly_sorted_impl;
      [| apply (sort_sorted cmp_newest cmp_newest_total cmp_newest_trans)].
    intros a b. unfold cmp_newest. lia.
Qed.

(** C3, the counterexample.  Two items with the same filename: "az" keeps
    them in their order, "za" keeps them again, and the result is not the
    reverse. *)
Lemma sort_za_az_not_reverse :
  applySort (H := ordinal) empty_storage
    (applySort (H := ordinal) empty_storage tied_items "az") "za"
  <> rev (applySort (H := ordinal) empty_storage tied_items "az").
Proof.
  unfold tied_items. rewrite tied_pair_keeps_order by reflexivity.
  by vm_compute.
Qed.

(* ================================================================= *)
(** ** The properties at sample inputs *)

(** The code-unit collation is a consistent comparison. *)
Lemma ordinal_consistent : consistent ordinal.
Proof.
  split.
  - intros a b. unfold localeCompare, ordinal.
    rewrite (String.compare_antisym a b).
    destruct (String.compare b a); simpl; lia.
  - intros a b c. unfold localeCompare, ordinal.
    destruct (String.compare a b) eqn:Eab; [| |lia].
    + apply String.compare_eq_iff in Eab as ->. done.
    + destruct (String.compare b c) eqn:Ebc; [| |lia].
      * apply String.compare_eq_iff in Ebc as <-. by rewrite Eab.
      * intros _ _.
        apply String_as_OT.cmp_lt in Eab, Ebc.
        pose proof (String_as_OT.lt_trans _ _ _ Eab Ebc) as Hac.
        apply String_as_OT.cmp_lt in Hac.
        unfold String_as_OT.cmp in Hac. by rewrite Hac.
Qed.

(** The three sample filenames differ pairwise. *)
Lemma sample_items_no_ties : no_ties (H := ordinal) sample_items.
Proof. unfold no_ties, sample_items. repeat constructor; by vm_compute. Qed.

(** A batch of six whose second request is rejected: the three items of
    the gallery stay. *)
Lemma brew_failed_batch_witness :
  1 < Z.to_nat 6
  /\ is_Some (network (sample_world 1) (length (requests (sample_world 1)) + 1))
  /\ items (brew (H := ordinal) (Num 6) sample_app (sample_world 1)).1
     = items sample_app.
Proof.
  assert (H1 : 1 < Z.to_nat 6) by (simpl; lia).
  assert (H2 : is_Some (network (sample_world 1)
                          (length (requests (sample_world 1)) + 1)))
    by (by eexists).
  split; [exact H1|]. split; [exact H2|].
  exact (proj1 (proj2
    (brew_failed_batch (H := ordinal) 6 sample_app (sample_world 1) 1 H1 H2))).
Defined.

(** A batch of three with a running clock and fresh draws: three items,
    three ids. *)
Lemma fetchBatch_success_witness :
  exists (batch : list Item) (w' : World),
    fetchBatch 3 (sample_world 7) = (Returned batch, w')
    /\ Z.of_nat (length batch) = 3%Z
    /\ NoDup (List.map id batch).
Proof.
  destruct (fetchBatch_success 3 (sample_world 7))
    as (batch & w' & E & Hlen & _ & _ & _ & Hids).
  - lia.
  - intros k Hk. simpl in *.
    destruct k as [|[|[|k]]]; [reflexivity | reflexivity | reflexivity | lia].
  - exists batch, w'. split; [exact E|]. split; [exact Hlen|].
    apply Hids. apply (bool_decide_unpack _). by vm_compute.
Defined.

(** The sample gallery has no tied filenames: "za" after "az" reverses. *)
Lemma sort_az_za_newest_witness :
  applySort (H := ordinal) sample_storage
    (applySort (H := ordinal) sample_storage sample_items "az") "za"
  = rev (applySort (H := ordinal) sample_storage sample_items "az").
Proof.
  exact (proj1 (sort_az_za_newest (C := ordinal) sample_storage sample_items)
           ordinal_consistent sample_items_no_ties).
Defined.

(** A blank query keeps the gallery; " LATTE " keeps items whose filename
    or note holds "latte". *)
Lemma applySearch_spec_witness :
  applySearch sample_storage sample_items "   " = sample_items
  /\ (forall it : Item,
         In it (applySearch sample_storage sample_items " LATTE ") ->
         In it sample_items
         /\ (occurs "latte" (norm (filename it))
             \/ occurs "latte"
                  (norm (default EmptyString
                           (getNotesMap sample_storage !! id it))))).
Proof.
  split.
  - apply (proj1 (applySearch_spec sample_storage sample_items "   ")).
    reflexivity.
  - destruct (proj2 (applySearch_spec sample_storage sample_items " LATTE "))
      as (keep & Hkeep & _ & Hin).
    + discriminate.
    + intros it Hit. destruct (proj1 (Hin it) Hit) as [Hl Hk].
      split; [exact Hl|]. apply Hkeep. exact Hk.
Defined.

(** Sorting array 1 of the sample store, by an unknown mode and by "az":
    array 1 keeps its contents. *)
Lemma applySort_copy_witness :
  (Ref.applySort (H := ordinal) sample_storage 1 "shuffle" sample_heap).2
    !! 1%positive = Some sample_items
  /\ (Ref.applySort (H := ordinal) sample_storage 1 "shuffle" sample_heap).2
       !! (Ref.applySort (H := ordinal) sample_storage 1 "shuffle" sample_heap).1
     = Some sample_items
  /\ (Ref.applySort (H := ordinal) sample_storage 1 "az" sample_heap).2
       !! 1%positive = Some sample_items.
Proof.
  assert (Hl : sample_heap !! 1%positive = Some sample_items)
    by apply lookup_singleton_eq.
  split; [|split].
  - exact (proj1
      (applySort_copy (H := ordinal) sample_storage 1 "shuffle" sample_heap
         sample_items Hl)).
  - apply (applySort_copy (H := ordinal) sample_storage 1 "shuffle" sample_heap
             sample_items Hl); discriminate.
  - exact (proj1
      (applySort_copy (H := ordinal) sample_storage 1 "az" sample_heap
         sample_items Hl)).
Defined.

(** "abc!" in the search field: the query and the grid stay, the message
    shows. *)
Lemma onSearchInput_rejects_witness :
  searchInput_value (document sample_app) = "abc!"
  /\ query (onSearchInput (H := ordinal) sample_app) = query sample_app
  /\ resultsGrid (document (onSearchInput (H := ordinal) sample_app))
     = resultsGrid (document sample_app)
  /\ errorBox_textContent (document (onSearchInput (H := ordinal) sample_app))
     = search_error.
Proof.
  assert (Hne : Js.trim (searchInput_value (document sample_app)) <> EmptyString)
    by discriminate.
  assert (Hbad : exists c : ascii,
             In c (chars (Js.trim (searchInput_value (document sample_app))))
             /\ search_char c = false).
  { exists "!"%char. split; [|reflexivity]. simpl. tauto. }
  pose proof (onSearchInput_rejects (H := ordinal) sample_app Hne Hbad)
    as (Hq & _ & _ & _ & _ & Hgrid & _ & _ & Herr & _).
  split; [reflexivity|]. split; [exact Hq|]. split; [exact Hgrid | exact Herr].
Defined.

(** Three spaces remove the note; " two sugars  " is stored trimmed. *)
Lemma setNote_getNote_witness :
  getNote "cf_1700000000008_8af2"
    (setNote "cf_1700000000008_8af2" "   " sample_storage) = EmptyString
  /\ getNote "cf_1700000000001_8af1"
       (setNote "cf_1700000000001_8af1" " two sugars  " sample_storage)
     = "two sugars".
Proof.
  split.
  - apply (proj1 (setNote_getNote "cf_1700000000008_8af2" "   " sample_storage)).
    reflexivity.
  - apply (proj2 (setNote_getNote "cf_1700000000001_8af1" " two sugars  "
                    sample_storage)).
    reflexivity.
Defined.

(** Toggling one id and noting another leave each other's entries. *)
Lemma storage_frame_witness :
  getFavoritesMap (toggleFavorite "cf_1700000000008_8af2" sample_storage)
    !! "cf_1700000000001_8af1"
  = getFavoritesMap sample_storage !! "cf_1700000000001_8af1"
  /\ getNotesMap (setNote "cf_1700000000001_8af1" "dark roast" sample_storage)
       !! "cf_1700000000008_8af2"
     = getNotesMap sample_storage !! "cf_1700000000008_8af2".
Proof.
  split.
  - apply (storage_frame "cf_1700000000008_8af2" "cf_1700000000001_8af1"
             EmptyString sample_storage).
    discriminate.
  - apply (storage_frame "cf_1700000000001_8af1" "cf_1700000000008_8af2"
             "dark roast" sample_storage).
    discriminate.
Defined.

(* ================================================================= *)
(** * Further properties of the script *)

(** ** Normalization and validation *)

Section NormFacts.

Lemma lower_char_idem (c : ascii) :
  Js.lower_char (Js.lower_char c) = Js.lower_char c.
Proof. by destruct c as [[] [] [] [] [] [] [] []]. Qed.

Lemma lower_char_white_space (c : ascii) :
  Js.is_white_space (Js.lower_char c) = Js.is_white_space c.
Proof. by destruct c as [[] [] [] [] [] [] [] []]. Qed.

Lemma toLowerCase_idem (s : string) :
  Js.toLowerCase (Js.toLowerCase s) = Js.toLowerCase s.
Proof.
  induction s as [|c s IH]; simpl; [done|]. by rewrite lower_char_idem, IH.
Qed.

Lemma toLowerCase_empty (s : string) :
  Js.is_empty (Js.toLowerCase s) = Js.is_empty s.
Proof. by destruct s. Qed.

Lemma toLowerCase_app (a b : string) :
  Js.toLowerCase (a +:+ b) = Js.toLowerCase a +:+ Js.toLowerCase b.
Proof.
  induction a as [|c a IH]; [done|].
  rewrite append_cons. simpl. by rewrite IH.
Qed.

Lemma toLowerCase_trimStart (s : string) :
  Js.toLowerCase (Js.trimStart s) = Js.trimStart (Js.toLowerCase s).
Proof.
  induction s as [|c s IH]; simpl; [done|].
  rewrite lower_char_white_space. by destruct (Js.is_white_space c).
Qed.

Lemma toLowerCase_trimEnd (s : string) :
  Js.toLowerCase (Js.trimEnd s) = Js.trimEnd (Js.toLowerCase s).
Proof.
  induction s as [|c s IH]; simpl; [done|].
  rewrite lower_char_white_space, <- IH, toLowerCase_empty.
  by destruct (Js.is_white_space c && Js.is_empty (Js.trimEnd s)).
Qed.

(** Folding the case and trimming can be done in either order. *)
Lemma toLowerCase_trim (s : string) :
  Js.toLowerCase (Js.trim s) = Js.trim (Js.toLowerCase s).
Proof. unfold Js.trim. by rewrite toLowerCase_trimEnd, toLowerCase_trimStart. Qed.

Lemma trim_head (s : string) :
  match Js.trim s with
  | EmptyString => True
  | String c _ => Js.is_white_space c = false
  end.
Proof. apply trimEnd_head, trimStart_head. Qed.

Lemma occurs_trimStart (n h : string) :
  match n with
  | EmptyString => False
  | String c _ => Js.is_white_space c = false
  end ->
  occurs n h -> occurs n (Js.trimStart h).
Proof.
  intros Hn (pre & post & ->). induction pre as [|a pre IH].
  - destruct n as [|c n]; [done|]. rewrite append_empty_l, append_cons.
    simpl. rewrite Hn. by exists EmptyString, post.
  - rewrite append_cons. simpl. destruct (Js.is_white_space a); [exact IH|].
    by exists (String a pre), post.
Qed.

Lemma trimEnd_app (a t : string) :
  Js.trimEnd t <> EmptyString -> Js.trimEnd (a +:+ t) = a +:+ Js.trimEnd t.
Proof.
  intros Ht. induction a as [|c a IH]; [done|].
  rewrite !append_cons. simpl. rewrite IH.
  destruct a; simpl.
  - apply is_empty_false in Ht. rewrite append_empty_l, Ht.
    by rewrite andb_false_r.
  - by rewrite andb_false_r.
Qed.

Lemma trimEnd_fixed_app (n post : string) :
  n <> EmptyString -> Js.trimEnd n = n ->
  Js.trimEnd (n +:+ post) = n +:+ Js.trimEnd post.
Proof.
  induction n as [|c n IH]; [done|]. intros _ Hfix.
  simpl in Hfix.
  destruct (Js.is_white_space c && Js.is_empty (Js.trimEnd n)) eqn:E;
    [discriminate|].
  injection Hfix as Hfix. rewrite !append_cons. simpl.
  destruct n as [|d n].
  - simpl in E. rewrite andb_true_r in E. rewrite !append_empty_l, E. done.
  - rewrite IH by done. rewrite append_cons. simpl. by rewrite andb_false_r.
Qed.

(** A trimmed text that occurs in a text occurs in its trimmed form. *)
Lemma occurs_trim (n h : string) :
  n <> EmptyString -> Js.trim n = n -> occurs n h -> occurs n (Js.trim h).
Proof.
  intros Hne Hfix Hocc.
  assert (Hhead : match n with
                  | EmptyString => False
                  | String c _ => Js.is_white_space c = false
                  end).
  { pose proof (trim_head n) as Hh. rewrite Hfix in Hh. by destruct n. }
  assert (Hend : Js.trimEnd n = n).
  { rewrite <- Hfix at 1. unfold Js.trim. rewrite trimEnd_idem. exact Hfix. }
  apply (occurs_trimStart n h Hhead) in Hocc as (pre & post & E).
  unfold Js.trim. rewrite E. exists pre, (Js.trimEnd post).
  rewrite trimEnd_app.
  - by rewrite trimEnd_fixed_app.
  - rewrite trimEnd_fixed_app by done. by destruct n.
Qed.

Lemma all_chars_forall (p : ascii -> bool) (s : string) :
  Js.all_chars p s = true <-> forall c, In c (chars s) -> p c = true.
Proof.
  unfold chars. induction s as [|a s IH]; simpl.
  - split; [intros _ c [] | done].
  - rewrite andb_true_iff, IH. split.
    + intros [Ha Hs] c [<- | Hin]; auto.
    + intros Hall. split; [apply Hall; by left | intros c Hc; apply Hall; by right].
Qed.

End NormFacts.

(** X1. A search text is valid exactly when every character of its trimmed
    form is in the class: an ASCII letter, a digit, a space, [-], [_] or
    [#].  A blank text is valid; validity depends on the trimmed form only. *)
Theorem isValidSearch_iff (s : string) :
  (isValidSearch s = true
   <-> forall c : ascii, In c (chars (Js.trim s)) -> search_char c = true)
  /\ isValidSearch (Js.trim s) = isValidSearch s.
Proof.
  split.
  - rewrite <- all_chars_forall. unfold isValidSearch, search_regex_test.
    rewrite length_zero_empty. by destruct (Js.trim s).
  - unfold isValidSearch. by rewrite trim_idem.
Qed.

(** X2. Normalizing a normalized text changes nothing, and the query and
    its normalized form select the same items. *)
Theorem norm_idem (s : string) (ls : Storage) (l : list Item) :
  norm (norm s) = norm s
  /\ applySearch ls l (norm s) = applySearch ls l s.
Proof.
  assert (E : norm (norm s) = norm s).
  { unfold norm.
    by rewrite (toLowerCase_trim (Js.toLowerCase s)), toLowerCase_idem, trim_idem. }
  split; [exact E|]. unfold applySearch. by rewrite E.
Qed.

(** X3. The search is a case-insensitive substring match: an item of the
    list is kept whenever the trimmed query, letter case aside, occurs in
    its filename or in its note. *)
Theorem applySearch_finds (ls : Storage) (l : list Item) (q : string) (it : Item) :
  In it l ->
  Js.trim q <> EmptyString ->
  occurs (Js.toLowerCase (Js.trim q)) (Js.toLowerCase (filename it))
  \/ occurs (Js.toLowerCase (Js.trim q)) (Js.toLowerCase (getNote (id it) ls)) ->
  In it (applySearch ls l q).
Proof.
  intros Hin Hq Hocc.
  assert (Hn : norm q = Js.toLowerCase (Js.trim q))
    by (unfold norm; by rewrite toLowerCase_trim).
  assert (Hne : norm q <> EmptyString).
  { rewrite Hn. apply is_empty_false. rewrite toLowerCase_empty.
    by apply is_empty_false. }
  assert (Hfix : Js.trim (norm q) = norm q) by (unfold norm; apply trim_idem).
  unfold applySearch. apply is_empty_false in Hne as Hf. rewrite Hf.
  apply filter_In. split; [exact Hin|].
  unfold matches. rewrite orb_true_iff, !includes_spec. rewrite <- Hn in Hocc.
  destruct Hocc as [H1 | H2]; [left | right]; unfold norm at 2;
    by apply occurs_trim.
Qed.

(** A query in capitals finds the item whose note says "Iced Latte". *)
Lemma applySearch_finds_witness :
  In (sample_item "cf_1700000000008_8af2" "coffee_2023-11-14T22-13-20-009Z.jpg"
        1700000000010)
     (applySearch sample_storage sample_items " LATTE ").
Proof.
  apply applySearch_finds.
  - simpl. tauto.
  - discriminate.
  - right. by exists "iced ", EmptyString.
Defined.

(** X4. A valid search input becomes the query, trimmed; the error box is
    cleared, and the grid shows the cards of the view derived with the new
    query.  The items, the sort mode and the storage stay. *)
Theorem onSearchInput_accepts `{Collator} (app : App) :
  let raw := searchInput_value (document app) in
  (forall c : ascii, In c (chars (Js.trim raw)) -> search_char c = true) ->
  let app' := onSearchInput app in
  query app' = Js.trim raw
  /\ items app' = items app
  /\ sortMode app' = sortMode app
  /\ localStorage app' = localStorage app
  /\ errorBox_hidden (document app') = true
  /\ errorBox_textContent (document app') = EmptyString
  /\ List.map card_item (resultsGrid (document app'))
     = applySort (localStorage app)
         (applySearch (localStorage app) (items app) (Js.trim raw))
         (sortMode app).
Proof.
  intros raw Hok app'. subst app'. unfold onSearchInput. fold raw.
  assert (Hv : isValidSearch (Js.trim raw) = true).
  { unfold isValidSearch, search_regex_test.
    rewrite trim_idem, length_zero_empty.
    apply all_chars_forall in Hok. rewrite Hok. by destruct (Js.trim raw). }
  rewrite Hv. simpl. unfold view. simpl.
  repeat split.
  destruct (applySort _ _ _) as [|x t] eqn:E; [done|].
  rewrite List.map_map. simpl. f_equal. by rewrite List.map_id.
Qed.

(** "  Latte " is accepted: the query becomes "Latte". *)
Lemma onSearchInput_accepts_witness :
  query (onSearchInput (H := ordinal) latte_app) = "Latte"
  /\ errorBox_hidden (document (onSearchInput (H := ordinal) latte_app)) = true.
Proof.
  assert (Hok : forall c : ascii,
             In c (chars (Js.trim (searchInput_value (document latte_app)))) ->
             search_char c = true).
  { simpl. intros c Hc.
    repeat (destruct Hc as [<- | Hc]; [reflexivity|]). destruct Hc. }
  pose proof (onSearchInput_accepts (H := ordinal) latte_app Hok)
    as (Hq & _ & _ & _ & He & _).
  split; [exact Hq | exact He].
Defined.

(* ================================================================= *)
(** ** More on sorting *)

Section StableSortFacts.

Context {A : Type} (cmp : A -> A -> Z).

Lemma insert_first (x : A) (l : list A) :
  Forall (fun y => (cmp x y <= 0)%Z) l -> Js.insert cmp x l = x :: l.
Proof.
  destruct 1 as [|y l Hy _]; simpl; [done|].
  by destruct (Z.leb_spec (cmp x y) 0); [|lia].
Qed.

(** Sorting a sorted list leaves it as it is. *)
Lemma sort_fixed (l : list A) :
  StronglySorted (fun a b => (cmp a b <= 0)%Z) l -> Js.sort cmp l = l.
Proof.
  induction 1 as [|x l _ IH Hx]; simpl; [done|].
  rewrite IH. by apply insert_first.
Qed.

(** An ascending list, sorted by a comparison that puts every later element
    first, comes out reversed. *)
Lemma sort_reverses (l : list A) :
  StronglySorted (fun a b => (0 < cmp a b)%Z) l -> Js.sort cmp l = rev l.
Proof.
  induction 1 as [|x l _ IH Hx]; simpl; [done|].
  rewrite IH. apply insert_last.
  eapply Permutation_Forall; [apply Permutation_rev | exact Hx].
Qed.

Hypothesis cmp_total : forall a b, (cmp a b <= 0 \/ cmp b a <= 0)%Z.
Hypothesis cmp_trans :
  forall a b c, (cmp a b <= 0 -> cmp b c <= 0 -> cmp a c <= 0)%Z.

Lemma sort_idem (l : list A) : Js.sort cmp (Js.sort cmp l) = Js.sort cmp l.
Proof. by apply sort_fixed, sort_sorted. Qed.

Lemma filter_insert (p : A -> bool) (x : A) (l : list A) :
  StronglySorted (fun a b => (cmp a b <= 0)%Z) l ->
  List.filter p (Js.insert cmp x l)
  = if p x then Js.insert cmp x (List.filter p l) else List.filter p l.
Proof.
  induction 1 as [|y l Hs IH Hy]; simpl.
  - by destruct (p x).
  - destruct (Z.leb_spec (cmp x y) 0) as [Hle|Hgt].
    + cbn [List.filter]. destruct (p x) eqn:Epx; [|done].
      symmetry. apply (insert_first x (List.filter p (y :: l))).
      apply Forall_forall. intros z Hz.
      apply list_elem_of_In, filter_In in Hz as [[<- | Hz] _]; [done|].
      rewrite Forall_forall in Hy. apply (cmp_trans x y z Hle).
      by apply Hy, list_elem_of_In.
    + cbn [List.filter]. rewrite IH.
      destruct (p y), (p x); try done.
      simpl. by destruct (Z.leb_spec (cmp x y) 0); [lia|].
Qed.

(** Filtering the sorted list and sorting the filtered list give the same
    list. *)
Lemma filter_sort (p : A -> bool) (l : list A) :
  List.filter p (Js.sort cmp l) = Js.sort cmp (List.filter p l).
Proof.
  induction l as [|x l IH]; simpl; [done|].
  rewrite filter_insert by (by apply sort_sorted).
  rewrite IH. by destruct (p x).
Qed.

End StableSortFacts.

Section ModeFacts.

Context `{C : Collator}.

Lemma cmp_fav_total (ls : Storage) (a b : Item) :
  (cmp_fav ls a b <= 0 \/ cmp_fav ls b a <= 0)%Z.
Proof.
  unfold cmp_fav.
  destruct (isFavorite (id a) ls), (isFavorite (id b) ls); simpl; lia.
Qed.

Lemma cmp_fav_trans (ls : Storage) (a b c : Item) :
  (cmp_fav ls a b <= 0 -> cmp_fav ls b c <= 0 -> cmp_fav ls a c <= 0)%Z.
Proof.
  unfold cmp_fav.
  destruct (isFavorite (id a) ls), (isFavorite (id b) ls),
    (isFavorite (id c) ls); simpl; lia.
Qed.

Lemma cmp_fav_order (ls : Storage) (a b : Item) :
  (cmp_fav ls a b <= 0)%Z -> fav_order ls a b.
Proof.
  unfold cmp_fav, fav_order.
  destruct (isFavorite (id a) ls), (isFavorite (id b) ls); simpl;
    intros Hc; first [by left | right; split; [done | lia] | lia].
Qed.

Lemma cmp_az_total (HC : consistent C) (a b : Item) :
  (cmp_az a b <= 0 \/ cmp_az b a <= 0)%Z.
Proof.
  unfold cmp_az.
  destruct (Z_lt_le_dec 0%Z (localeCompare (filename a) (filename b)))
    as [Hlt|]; [|by left].
  apply (lc_flip HC) in Hlt. right. lia.
Qed.

Lemma cmp_az_trans (HC : consistent C) (a b c : Item) :
  (cmp_az a b <= 0 -> cmp_az b c <= 0 -> cmp_az a c <= 0)%Z.
Proof. unfold cmp_az. apply (lc_trans HC). Qed.

Lemma cmp_za_total (HC : consistent C) (a b : Item) :
  (cmp_za a b <= 0 \/ cmp_za b a <= 0)%Z.
Proof. destruct (cmp_az_total HC a b); [by right | by left]. Qed.

Lemma cmp_za_trans (HC : consistent C) (a b c : Item) :
  (cmp_za a b <= 0 -> cmp_za b c <= 0 -> cmp_za a c <= 0)%Z.
Proof. unfold cmp_za. intros H1 H2. by apply (lc_trans HC _ (filename b)). Qed.

End ModeFacts.

(** X5. Whatever the mode, sorting rearranges: the result holds the items
    of the input, each as often as the input does. *)
Theorem applySort_permutation `{Collator} (ls : Storage) (l : list Item)
  (mode : string) :
  applySort ls l mode ≡ₚ l /\ length (applySort ls l mode) = length l.
Proof.
  assert (Hp : applySort ls l mode ≡ₚ l).
  { unfold applySort. repeat case_match; try apply sort_perm. done. }
  split; [exact Hp | by rewrite Hp].
Qed.

(** X6. In the "fav" mode every favorite comes before every non-favorite,
    and within each of the two groups [addedAt] never increases. *)
Theorem applySort_fav `{Collator} (ls : Storage) (l : list Item) :
  StronglySorted (fav_order ls) (applySort ls l "fav")
  /\ (forall i j a b,
         i < j ->
         applySort ls l "fav" !! i = Some a ->
         applySort ls l "fav" !! j = Some b ->
         isFavorite (id b) ls = true -> isFavorite (id a) ls = true).
Proof.
  assert (Hs : StronglySorted (fav_order ls) (applySort ls l "fav")).
  { unfold applySort. simpl.
    eapply strongly_sorted_impl;
      [| apply (sort_sorted (cmp_fav ls) (cmp_fav_total ls) (cmp_fav_trans ls))].
    apply cmp_fav_order. }
  split; [exact Hs|].
  revert Hs. generalize (applySort ls l "fav"). intros s Hs.
  induction Hs as [|x s _ IH Hx]; intros i j a b Hij Ha Hb Hfav.
  - by rewrite lookup_nil in Ha.
  - destruct j as [|j]; [lia|]. simpl in Hb. destruct i as [|i].
    + simpl in Ha. injection Ha as ->.
      rewrite Forall_forall in Hx.
      assert (Hab : fav_order ls a b).
      { apply Hx. by eapply list_elem_of_lookup_2. }
      destruct Hab as [[Hfa _] | [Heq _]]; congruence.
    + simpl in Ha. apply (IH i j a b); [lia | done | done | done].
Qed.

(** X7. Under a consistent collation, sorting by a mode what that mode has
    sorted changes nothing. *)
Theorem applySort_idem `{C : Collator} (ls : Storage) (l : list Item)
  (mode : string) :
  consistent C ->
  applySort ls (applySort ls l mode) mode = applySort ls l mode.
Proof.
  intros HC. unfold applySort. repeat case_match; try done.
  - apply sort_idem; [apply cmp_newest_total | apply cmp_newest_trans].
  - apply sort_idem; [apply (cmp_az_total HC) | apply (cmp_az_trans HC)].
  - apply sort_idem; [apply (cmp_za_total HC) | apply (cmp_za_trans HC)].
  - apply sort_idem; [apply cmp_fav_total | apply cmp_fav_trans].
Qed.

(** The sample gallery, sorted twice by filename. *)
Lemma applySort_idem_witness :
  applySort (H := ordinal) sample_storage
    (applySort (H := ordinal) sample_storage sample_items "az") "az"
  = applySort (H := ordinal) sample_storage sample_items "az".
Proof.
  exact (applySort_idem (C := ordinal) sample_storage sample_items "az"
           ordinal_consistent).
Defined.

(** X8. Under a consistent collation, searching the sorted list gives what
    sorting the search result gives: the view does not depend on the order
    of the two steps. *)
Theorem applySearch_applySort `{C : Collator} (ls : Storage) (l : list Item)
  (q mode : string) :
  consistent C ->
  applySearch ls (applySort ls l mode) q = applySort ls (applySearch ls l q) mode.
Proof.
  intros HC. unfold applySearch.
  destruct (Js.is_empty (norm q)); [done|].
  unfold applySort. repeat case_match; try done.
  - apply filter_sort; [apply cmp_newest_total | apply cmp_newest_trans].
  - apply filter_sort; [apply (cmp_az_total HC) | apply (cmp_az_trans HC)].
  - apply filter_sort; [apply (cmp_za_total HC) | apply (cmp_za_trans HC)].
  - apply filter_sort; [apply cmp_fav_total | apply cmp_fav_trans].
Qed.

(** The sample gallery, searched for "latte" and put favorites first. *)
Lemma applySearch_applySort_witness :
  applySearch sample_storage
    (applySort (H := ordinal) sample_storage sample_items "fav") "latte"
  = applySort (H := ordinal) sample_storage
      (applySearch sample_storage sample_items "latte") "fav".
Proof.
  exact (applySearch_applySort (C := ordinal) sample_storage sample_items
           "latte" "fav" ordinal_consistent).
Defined.

(* ================================================================= *)
(** ** More on the storage *)

Section StorageOpsFacts.

Lemma notes_wf_setNote (k note : string) (ls : Storage) :
  notes_wf (getNotesMap ls) -> notes_wf (getNotesMap (setNote k note ls)).
Proof.
  intros Hwf k' v. rewrite setNote_map.
  destruct (Js.is_empty (Js.trim note)) eqn:E.
  - intros Hv. apply lookup_delete_Some in Hv as [_ Hv]. by apply (Hwf k').
  - intros Hv. apply lookup_insert_Some in Hv as [[_ <-] | [_ Hv]].
    + split; [by apply is_empty_false | apply trim_idem].
    + by apply (Hwf k').
Qed.

Lemma notes_wf_run_op (op : StorageOp) (ls : Storage) :
  notes_wf (getNotesMap ls) -> notes_wf (getNotesMap (run_op ls op)).
Proof. destruct op; simpl; [done | apply notes_wf_setNote]. Qed.

End StorageOpsFacts.

(** X9. A toggle changes the number of favorites by one: one more when the
    id was no favorite, one less when it was. *)
Theorem toggleFavorite_size (k : string) (ls : Storage) :
  size (getFavoritesMap (toggleFavorite k ls))
  = if isFavorite k ls then size (getFavoritesMap ls) - 1
    else S (size (getFavoritesMap ls)).
Proof.
  rewrite toggleFavorite_map. unfold isFavorite.
  destruct (getFavoritesMap ls !! k) as [[]|] eqn:E.
  - rewrite map_size_delete_Some by eauto. lia.
  - by rewrite map_size_insert_None.
Qed.

(** X10. The last note saved for an id wins: saving a second note gives
    the storage that saving it alone gives. *)
Theorem setNote_overwrites (k n1 n2 : string) (ls : Storage) :
  setNote k n2 (setNote k n1 ls) = setNote k n2 ls.
Proof.
  unfold setNote at 1 3. rewrite setNote_map. unfold setNotesMap. simpl.
  f_equal. f_equal.
  destruct (Js.is_empty (Js.trim n2)), (Js.is_empty (Js.trim n1)); simpl.
  - apply delete_delete_eq.
  - apply delete_insert_eq.
  - apply insert_delete_eq.
  - apply insert_insert_eq.
Qed.

(** X11. When every stored note is trimmed and not empty, this stays so
    through every sequence of toggles and saved notes, and then [getNote]
    answers the empty string for exactly the ids without an entry. *)
Theorem notes_stay_trimmed (ops : list StorageOp) (ls : Storage) :
  notes_wf (getNotesMap ls) ->
  notes_wf (getNotesMap (run_ops ops ls))
  /\ (forall k : string,
         getNote k (run_ops ops ls) = EmptyString
         <-> getNotesMap (run_ops ops ls) !! k = None).
Proof.
  intros Hwf.
  assert (Hwf' : notes_wf (getNotesMap (run_ops ops ls))).
  { unfold run_ops. revert ls Hwf.
    induction ops as [|op ops IH]; intros ls Hwf; simpl; [done|].
    by apply IH, notes_wf_run_op. }
  split; [exact Hwf'|]. intros k. unfold getNote.
  destruct (getNotesMap (run_ops ops ls) !! k) as [v|] eqn:E; simpl; [|done].
  split; [|done]. intros ->. by destruct (Hwf' k EmptyString E).
Qed.

(** From a storage without the notes key: a note, a blank note, a
    toggle. *)
Lemma notes_stay_trimmed_witness :
  notes_wf (getNotesMap
              (run_ops [Note "cf_1" "  mocha "; Note "cf_2" "   "; Toggle "cf_1"]
                 empty_storage)).
Proof.
  apply (notes_stay_trimmed
           [Note "cf_1" "  mocha "; Note "cf_2" "   "; Toggle "cf_1"]
           empty_storage).
  intros k v Hv.
  change (getNotesMap empty_storage) with (∅ : gmap string string) in Hv.
  by rewrite lookup_empty in Hv.
Defined.

(** Favorites and notes are independent: a toggle and a saved note give
    the same storage in either order. *)
Lemma toggleFavorite_setNote_commute (a b note : string) (ls : Storage) :
  toggleFavorite a (setNote b note ls) = setNote b note (toggleFavorite a ls).
Proof. reflexivity. Qed.

(* ================================================================= *)
(** ** Theme *)

Section ThemeFacts.

Lemma applyTheme_theme (t : string) (ls : Storage) :
  theme (applyTheme t ls).1 = Some (if String.eqb t "light" then "light" else "dark").
Proof. reflexivity. Qed.

Lemma stored_theme_applyTheme (t : string) (ls : Storage) :
  stored_theme (applyTheme t ls).1
  = if String.eqb t "light" then "light" else "dark".
Proof. unfold stored_theme. rewrite applyTheme_theme. by destruct (String.eqb t "light"). Qed.

End ThemeFacts.

(** X12. Whatever is stored, a toggle leaves "dark" or "light" as the
    stored theme, and never the theme that was in effect; the page's
    attribute, the button's state and its text agree with it; favorites and
    notes are kept. *)
Theorem toggleTheme_switches (ls : Storage) :
  let ls' := (toggleTheme ls).1 in
  let tv := (toggleTheme ls).2 in
  (stored_theme ls' = "dark" \/ stored_theme ls' = "light")
  /\ stored_theme ls' <> stored_theme ls
  /\ theme ls' = Some (data_theme tv)
  /\ (themeBtn_aria_pressed tv = "true" <-> data_theme tv = "light")
  /\ (themeBtn_textContent tv = "Theme: Light" <-> data_theme tv = "light")
  /\ favorites ls' = favorites ls
  /\ notes ls' = notes ls.
Proof.
  intros ls' tv. subst ls' tv. unfold toggleTheme.
  rewrite stored_theme_applyTheme.
  destruct (String.eqb_spec (stored_theme ls) "dark") as [E|E]; simpl.
  - rewrite E. repeat split; auto; discriminate.
  - repeat split; auto; discriminate.
Qed.

(** X13. When the theme in effect is "dark" or "light", two toggles store
    that theme again. *)
Theorem toggleTheme_twice (ls : Storage) :
  stored_theme ls = "dark" \/ stored_theme ls = "light" ->
  theme (toggleTheme (toggleTheme ls).1).1 = Some (stored_theme ls)
  /\ data_theme (toggleTheme (toggleTheme ls).1).2 = stored_theme ls.
Proof.
  intros Hv. unfold toggleTheme at 1 3.
  unfold toggleTheme. rewrite stored_theme_applyTheme.
  destruct Hv as [-> | ->]; by simpl.
Qed.

(** Nothing stored counts as "dark"; "light" is stored. *)
Lemma toggleTheme_twice_witness :
  theme (toggleTheme (toggleTheme empty_storage).1).1 = Some "dark"
  /\ theme (toggleTheme (toggleTheme light_storage).1).1 = Some "light".
Proof.
  split.
  - apply (toggleTheme_twice empty_storage). by left.
  - apply (toggleTheme_twice light_storage). by right.
Defined.

(* ================================================================= *)
(** ** The view and the handlers that render it *)

Section ViewFacts.

Context `{Collator}.

Lemma applySort_perm (ls : Storage) (l : list Item) (mode : string) :
  applySort ls l mode ≡ₚ l.
Proof. unfold applySort. repeat case_match; try apply sort_perm. done. Qed.

Lemma applySearch_sub (ls : Storage) (l : list Item) (q : string) :
  applySearch ls l q `sublist_of` l.
Proof.
  unfold applySearch. destruct (Js.is_empty (norm q)); [done|].
  apply filter_sublist.
Qed.

Lemma applySearch_blank (ls : Storage) (l : list Item) (q : string) :
  norm q = EmptyString -> applySearch ls l q = l.
Proof. intros Hq. unfold applySearch. by rewrite Hq. Qed.

(** Neither step of the view reads the favorites, unless the mode is
    "fav". *)
Lemma view_toggleFavorite (k : string) (app : App) :
  sortMode app <> "fav" ->
  view (with_localStorage (toggleFavorite k (localStorage app)) app) = view app.
Proof.
  intros Hm. unfold view. cbn [localStorage items query sortMode with_localStorage].
  assert (Hs : forall l,
             applySearch (toggleFavorite k (localStorage app)) l (query app)
             = applySearch (localStorage app) l (query app)) by done.
  rewrite Hs. unfold applySort. apply String.eqb_neq in Hm. by rewrite Hm.
Qed.

Lemma render_grid (app : App) :
  List.map card_item (resultsGrid (document (render app))) = view app.
Proof.
  unfold render. simpl. destruct (view app) as [|x t] eqn:E; [done|].
  rewrite List.map_map. simpl. f_equal. by rewrite List.map_id.
Qed.

Lemma render_cards (app : App) :
  resultsGrid (document (render app))
  = List.map (renderCard (localStorage app)) (view app).
Proof. unfold render. simpl. by destruct (view app). Qed.

End ViewFacts.

(** X14. The view shows only items of the collection, none more often than
    the collection holds it; with a blank query it shows all of them. *)
Theorem view_of_items `{Collator} (app : App) :
  view app ⊆+ items app
  /\ length (view app) <= length (items app)
  /\ (norm (query app) = EmptyString -> view app ≡ₚ items app).
Proof.
  assert (Hsub : view app ⊆+ items app).
  { unfold view. rewrite applySort_perm.
    apply sublist_submseteq, applySearch_sub. }
  split; [exact Hsub|]. split; [by apply submseteq_length|].
  intros Hq. unfold view. by rewrite applySort_perm, applySearch_blank.
Qed.

(** The sample gallery has a blank query: all three items are in view. *)
Lemma view_of_items_witness : view (H := ordinal) sample_app ≡ₚ items sample_app.
Proof.
  apply (view_of_items (H := ordinal) sample_app). reflexivity.
Defined.

(** X15. [render] puts on the grid one card per item of the view, in the
    view's order, each with the favorite flag and the note that the storage
    holds for its id; the empty-state box is hidden exactly when there is a
    card; the counters show the size of the collection, not of the view,
    and the number of favorites; the script's variables and the storage
    stay, and rendering again changes nothing. *)
Theorem render_shows_view `{Collator} (app : App) :
  let app' := render app in
  resultsGrid (document app')
  = List.map (fun it => {| card_item := it;
                           card_favorite := isFavorite (id it) (localStorage app);
                           card_note := getNote (id it) (localStorage app) |})
      (view app)
  /\ (emptyState_hidden (document app') = true <-> view app <> [])
  /\ countPill (document app')
     = Js.number_text (Z.of_nat (length (items app))) +:+ " loaded"
  /\ favPill (document app')
     = Js.number_text (Z.of_nat (size (getFavoritesMap (localStorage app))))
         +:+ " favorites"
  /\ items app' = items app
  /\ query app' = query app
  /\ sortMode app' = sortMode app
  /\ localStorage app' = localStorage app
  /\ render app' = app'.
Proof.
  intros app'. subst app'.
  split; [apply render_cards|].
  split; [|done].
  unfold render. simpl. by destruct (view app).
Qed.

(** X16. [clearGallery] empties the collection and the grid and shows the
    empty-state box, whatever the query and the mode; the favorites and the
    notes of the removed items stay in the storage. *)
Theorem clearGallery_empties `{Collator} (app : App) :
  let app' := clearGallery app in
  items app' = []
  /\ resultsGrid (document app') = []
  /\ emptyState_hidden (document app') = false
  /\ countPill (document app') = "0 loaded"
  /\ localStorage app' = localStorage app
  /\ query app' = query app
  /\ sortMode app' = sortMode app.
Proof.
  intros app'. subst app'. unfold clearGallery.
  assert (Hv : view (with_items [] app) = []).
  { apply Permutation_nil_r. unfold view. rewrite applySort_perm.
    apply Permutation_nil_r, sublist_nil_r. apply applySearch_sub. }
  rewrite render_cards. unfold render. cbn -[view]. rewrite Hv. done.
Qed.

(** X17. A click on a card's favorite button flips the favorite status of
    the card's id and renders: every card on the grid carries the flag of
    the new storage.  Unless the mode is "fav" the view is the one of
    before.  Items, query, mode and notes stay. *)
Theorem favBtn_click_flips `{Collator} (item : Item) (app : App) :
  let app' := favBtn_click item app in
  isFavorite (id item) (localStorage app')
  = negb (isFavorite (id item) (localStorage app))
  /\ Forall (fun c => card_favorite c
                      = isFavorite (id (card_item c)) (localStorage app'))
       (resultsGrid (document app'))
  /\ (sortMode app <> "fav" -> view app' = view app)
  /\ items app' = items app
  /\ query app' = query app
  /\ sortMode app' = sortMode app
  /\ getNotesMap (localStorage app') = getNotesMap (localStorage app).
Proof.
  intros app'. subst app'. unfold favBtn_click.
  split; [apply toggleFavorite_flips|].
  split.
  { rewrite render_cards. apply Forall_forall. intros c Hc.
    apply list_elem_of_In, in_map_iff in Hc as (it & <- & _). done. }
  split; [|done].
  intros Hm. by apply view_toggleFavorite.
Qed.

(** A click on the second sample card while the gallery is sorted by
    "newest". *)
Lemma favBtn_click_flips_witness :
  view (H := ordinal)
    (favBtn_click (H := ordinal)
       (sample_item "cf_1700000000001_8af1"
          "coffee_2023-11-14T22-13-20-002Z.jpg" 1700000000003)
       sample_app)
  = view (H := ordinal) sample_app.
Proof.
  apply (favBtn_click_flips (H := ordinal)
           (sample_item "cf_1700000000001_8af1"
              "coffee_2023-11-14T22-13-20-002Z.jpg" 1700000000003)
           sample_app).
  discriminate.
Defined.

(** X18. The clear-search button empties the search field and the query,
    hides the error box and renders: the grid then has a card for every
    item of the collection. *)
Theorem clearSearchBtn_click_shows_all `{Collator} (app : App) :
  let app' := clearSearchBtn_click app in
  searchInput_value (document app') = EmptyString
  /\ query app' = EmptyString
  /\ errorBox_hidden (document app') = true
  /\ List.map card_item (resultsGrid (document app')) ≡ₚ items app
  /\ length (resultsGrid (document app')) = length (items app)
  /\ items app' = items app
  /\ sortMode app' = sortMode app
  /\ localStorage app' = localStorage app.
Proof.
  intros app'. subst app'. unfold clearSearchBtn_click.
  assert (Hg : List.map card_item
                 (resultsGrid (document
                    (render (showError EmptyString
                       (with_query EmptyString
                          (with_document (set_searchInput_value EmptyString) app))))))
               ≡ₚ items app).
  { rewrite render_grid. unfold view. simpl. by rewrite applySort_perm. }
  repeat split; try done.
  rewrite <- (length_map card_item). by rewrite Hg.
Qed.

(* ================================================================= *)
(** ** More on batches *)

Section FailureFacts.

Lemma getRandomCoffeeItem_rejected (w : World) (m : string) :
  network w (length (requests w)) = Some m ->
  exists w', getRandomCoffeeItem w = (Thrown m, w')
             /\ requests w' = requests w ++ [round_trip_url w 0]
             /\ network w' = network w.
Proof.
  intros Hnet.
  unfold getRandomCoffeeItem, probeApiReachable.
  unfold mbind, async_bind, mret, async_ret, fetch, Date_now,
    Math_random_toString16.
  cbn -[Js.number_text Js.toISOString RANDOM_IMAGE_URL String.append].
  rewrite Hnet. eauto.
Qed.

Lemma requests_after_step (w : World) (k : nat) :
  requests (after 1 w) ++ List.map (round_trip_url (after 1 w)) (seq 0 k)
  = requests w ++ List.map (round_trip_url w) (seq 0 (S k)).
Proof.
  unfold after at 1. cbn [requests seq List.map].
  rewrite <- app_assoc. f_equal. simpl. f_equal.
  rewrite <- seq_shift, List.map_map.
  apply List.map_ext. intros i. apply round_trip_url_after.
Qed.

(** The loop stops at the first rejected request: it throws that request's
    error and has sent no request after it. *)
Lemma fetchBatch_loop_first_failure (n : nat) :
  forall (out : list Item) (w : World) (k : nat) (m : string),
    k < n ->
    (forall j, j < k -> network w (j + length (requests w)) = None) ->
    network w (k + length (requests w)) = Some m ->
    exists w', fetchBatch_loop n out w = (Thrown m, w')
               /\ requests w'
                  = requests w ++ List.map (round_trip_url w) (seq 0 (S k)).
Proof.
  induction n as [|n IH]; intros out w k m Hk Hok Hfail; [lia|].
  cbn [fetchBatch_loop]. unfold mbind, async_bind.
  destruct k as [|k].
  - destruct (getRandomCoffeeItem_rejected w m Hfail) as (w' & -> & Hr & _).
    exists w'. by split.
  - rewrite getRandomCoffeeItem_ok by (apply (Hok 0); lia).
    destruct (IH (out ++ [round_trip_item w 0]) (after 1 w) k m) as (w' & E & Hr).
    + lia.
    + intros j Hj. rewrite length_requests_after.
      replace (j + (1 + length (requests w)))
        with (S j + length (requests w)) by lia.
      apply Hok. lia.
    + rewrite length_requests_after.
      by replace (k + (1 + length (requests w)))
        with (S k + length (requests w)) by lia.
    + exists w'. split; [exact E|]. rewrite Hr. apply requests_after_step.
Qed.

Lemma sorted_map_seq {B} (R : B -> B -> Prop) (f : nat -> B) (n : nat) :
  forall s, (forall i j, i < j -> R (f i) (f j)) ->
            StronglySorted R (List.map f (seq s n)).
Proof.
  induction n as [|n IH]; intros s HR; simpl; constructor; [by apply IH|].
  apply Forall_forall. intros b Hb.
  apply list_elem_of_In, in_map_iff in Hb as (j & <- & Hj).
  apply in_seq in Hj. apply HR. lia.
Qed.

Lemma replace_colon_dot_clean (s : string) :
  Js.all_chars (fun c => negb (Ascii.eqb c ":" || Ascii.eqb c "."))
    (Js.replace_colon_dot s) = true.
Proof.
  induction s as [|c s IH]; simpl; [done|]. rewrite IH.
  by destruct (Ascii.eqb c ":" || Ascii.eqb c ".") eqn:E; [|rewrite E].
Qed.

End FailureFacts.

(** X19. A batch stops at the first rejected request: when the requests
    before the [k]-th resolve and the [k]-th is rejected with message [m],
    [fetchBatch] throws [m], and the requests it has sent are those of the
    round trips [0] to [k], in order, and no more. *)
Theorem fetchBatch_first_failure (n : Z) (w : World) (k : nat) (m : string) :
  k < Z.to_nat n ->
  (forall j : nat, j < k -> network w (length (requests w) + j) = None) ->
  network w (length (requests w) + k) = Some m ->
  exists w' : World,
    fetchBatch n w = (Thrown m, w')
    /\ requests w' = requests w ++ List.map (round_trip_url w) (seq 0 (S k))
    /\ length (requests w') = length (requests w) + S k.
Proof.
  intros Hk Hok Hfail.
  destruct (fetchBatch_loop_first_failure (Z.to_nat n) [] w k m Hk)
    as (w' & E & Hr).
  - intros j Hj. rewrite Nat.add_comm. by apply Hok.
  - by rewrite Nat.add_comm.
  - exists w'. split; [exact E|]. split; [exact Hr|].
    rewrite Hr, length_app, length_map, length_seq. done.
Qed.

(** Six wanted, the second rejected: two requests sent. *)
Lemma fetchBatch_first_failure_witness :
  exists w' : World,
    fetchBatch 6 (sample_world 1) = (Thrown "Failed to fetch", w')
    /\ length (requests w') = 2.
Proof.
  destruct (fetchBatch_first_failure 6 (sample_world 1) 1 "Failed to fetch")
    as (w' & E & _ & Hlen).
  - simpl. lia.
  - intros j Hj. destruct j as [|j]; [reflexivity | lia].
  - reflexivity.
  - exists w'. split; [exact E | exact Hlen].
Defined.



(** X21. Whatever the network does, a batch with a count above zero ends
    with the loading state cleared: the flag is off, the loading box is
    hidden and the controls are enabled. *)
Theorem brew_clears_loading `{Collator} (n : Z) (app : App) (w : World) :
  (0 < n)%Z ->
  let app' := (brew (Num n) app w).1 in
  isLoading app' = false
  /\ loadingBox_hidden (document app') = true
  /\ controls_disabled (document app') = false.
Proof.
  intros Hn app'. subst app'. unfold brew.
  assert (Hpos : (n <=? 0)%Z = false) by (apply Z.leb_gt; lia).
  rewrite Hpos. destruct (fetchBatch n w) as [[batch|m] w']; by simpl.
Qed.

(** The default batch of six, with the network down from the start. *)
Lemma brew_clears_loading_witness :
  isLoading (brew (H := ordinal) (Num 6) sample_app (sample_world 0)).1 = false.
Proof.
  apply (brew_clears_loading (H := ordinal) 6 sample_app (sample_world 0)).
  lia.
Defined.



(** X23. A count that is not a number, or is zero or negative, is refused:
    no request is sent and no clock or random value is read, the collection
    and the loading state are untouched, and the error box shows the
    message about the count. *)
Theorem brew_refuses_count `{Collator} (count : Value) (app : App) (w : World) :
  count = NotNum \/ (exists n : Z, count = Num n /\ (n <= 0)%Z) ->
  (brew count app w).2 = w
  /\ items (brew count app w).1 = items app
  /\ isLoading (brew count app w).1 = isLoading app
  /\ controls_disabled (document (brew count app w).1)
     = controls_disabled (document app)
  /\ resultsGrid (document (brew count app w).1) = resultsGrid (document app)
  /\ errorBox_hidden (document (brew count app w).1) = false
  /\ errorBox_textContent (document (brew count app w).1) = count_error.
Proof.
  intros Hbad. by rewrite (brew_invalid_count count app w Hbad).
Qed.

(** [brew(0)] and [brew] of a value that is no number. *)
Lemma brew_refuses_count_witness :
  (brew (H := ordinal) (Num 0) sample_app (sample_world 0)).2 = sample_world 0
  /\ items (brew (H := ordinal) NotNum sample_app (sample_world 0)).1
     = items sample_app.
Proof.
  split.
  - apply (brew_refuses_count (H := ordinal) (Num 0) sample_app (sample_world 0)).
    right. exists 0%Z. split; [reflexivity | lia].
  - apply (brew_refuses_count (H := ordinal) NotNum sample_app (sample_world 0)).
    by left.
Defined.

(** X24. When the clock moves forward between any two readings, the items
    of a successful batch have strictly increasing [addedAt], and the
    "newest" mode shows the batch in the reverse of its fetch order. *)
Theorem newest_reverses_batch `{Collator} (ls : Storage) (n : Z) (w : World) :
  (forall i j : nat, i < j -> (clock w i < clock w j)%Z) ->
  (forall k : nat, k < Z.to_nat n -> network w (length (requests w) + k) = None) ->
  exists (batch : list Item) (w' : World),
    fetchBatch n w = (Returned batch, w')
    /\ StronglySorted (fun a b => (addedAt a < addedAt b)%Z) batch
    /\ applySort ls batch "newest" = rev batch.
Proof.
  intros Hclock Hnet.
  exists (List.map (round_trip_item w) (seq 0 (Z.to_nat n))), (after (Z.to_nat n) w).
  split.
  { unfold fetchBatch. rewrite fetchBatch_loop_ok; [done|].
    intros k Hk. rewrite Nat.add_comm. by apply Hnet. }
  assert (Hs : StronglySorted (fun a b => (addedAt a < addedAt b)%Z)
                 (List.map (round_trip_item w) (seq 0 (Z.to_nat n)))).
  { apply sorted_map_seq. intros i j Hij. simpl. apply Hclock. lia. }
  split; [exact Hs|].
  unfold applySort. simpl. apply sort_reverses.
  eapply strongly_sorted_impl; [|exact Hs].
  intros a b. unfold cmp_newest. lia.
Qed.

(** The sample clock advances by seven milliseconds per reading. *)
Lemma newest_reverses_batch_witness :
  exists (batch : list Item) (w' : World),
    fetchBatch 3 (sample_world 7) = (Returned batch, w')
    /\ applySort (H := ordinal) sample_storage batch "newest" = rev batch.
Proof.
  destruct (newest_reverses_batch (H := ordinal) sample_storage 3 (sample_world 7))
    as (batch & w' & E & _ & Hrev).
  - intros i j Hij. simpl. lia.
  - intros k Hk. simpl in Hk.
    destruct k as [|[|[|k]]]; [reflexivity | reflexivity | reflexivity | lia].
  - exists batch, w'. split; [exact E | exact Hrev].
Defined.

(** X25. Whatever the clock reads, the filename is "coffee_", a stem and
    ".jpg", and the stem holds no colon and no dot: the only dot of the
    filename is the one of the extension. *)
Theorem makeFilename_shape (w : World) :
  exists stem : string,
    (makeFilename w).1 = Returned ("coffee_" +:+ stem +:+ ".jpg")
    /\ Js.all_chars (fun c => negb (Ascii.eqb c ":" || Ascii.eqb c ".")) stem
       = true
    /\ ticks (makeFilename w).2 = S (ticks w)
    /\ requests (makeFilename w).2 = requests w.
Proof.
  exists (Js.replace_colon_dot (Js.toISOString (clock w (ticks w)))).
  split; [done|]. split; [apply replace_colon_dot_clean | done].
Qed.

(* ================================================================= *)
(** ** Start-up, and the view over the store of arrays *)

Section RefViewFacts.

Context `{Collator}.

Lemma applySort_fresh (ls : Storage) (l : positive) (mode : string)
  (h : Ref.heap) :
  h !! (Ref.applySort ls l mode h).1 = None.
Proof.
  replace (Ref.applySort ls l mode h).1 with (Ref.alloc (Ref.contents h l) h).1.
  - apply alloc_fresh.
  - unfold Ref.applySort, Ref.alloc. by repeat case_match.
Qed.

Lemma applySearch_old (ls : Storage) (l : positive) (q : string)
  (h : Ref.heap) (a : positive) :
  is_Some (h !! a) -> (Ref.applySearch ls l q h).2 !! a = h !! a.
Proof.
  intros [v Hv]. unfold Ref.applySearch.
  destruct (Js.is_empty (norm q)); [done|].
  unfold Ref.alloc. simpl. apply lookup_insert_ne.
  intros E. pose proof (is_fresh (dom h)) as Hf.
  rewrite E in Hf. apply Hf, elem_of_dom. eauto.
Qed.

Lemma applySearch_allocated (ls : Storage) (l : positive) (q : string)
  (h : Ref.heap) :
  is_Some (h !! l) ->
  is_Some ((Ref.applySearch ls l q h).2 !! (Ref.applySearch ls l q h).1).
Proof.
  intros Hl. unfold Ref.applySearch.
  destruct (Js.is_empty (norm q)); [done|].
  unfold Ref.alloc. simpl. rewrite lookup_insert_eq. eauto.
Qed.

End RefViewFacts.

(** X26. [init] applies the stored theme, "dark" unless "light" is stored,
    and brews six: when the six requests resolve, six items stand in front
    of the collection, six requests have been sent and the loading state
    is cleared. *)
Theorem init_loads_six `{Collator} (app : App) (w : World) :
  (forall k : nat, k < 6 -> network w (length (requests w) + k) = None) ->
  let app' := (init app w).1.1 in
  let tv := (init app w).1.2 in
  let w' := (init app w).2 in
  items app' = List.map (round_trip_item w) (seq 0 6) ++ items app
  /\ length (requests w') = length (requests w) + 6
  /\ isLoading app' = false
  /\ data_theme tv
     = (if String.eqb (stored_theme (localStorage app)) "light"
        then "light" else "dark")
  /\ theme (localStorage app') = Some (data_theme tv)
  /\ favorites (localStorage app') = favorites (localStorage app)
  /\ notes (localStorage app') = notes (localStorage app).
Proof.
  intros Hnet app' tv w'. subst app' tv w'.
  unfold init, applyTheme, brew, fetchBatch.
  cbn [Z.leb Z.compare Z.to_nat Pos.to_nat Pos.iter_op Nat.add].
  rewrite fetchBatch_loop_ok
    by (intros k Hk; rewrite Nat.add_comm; by apply Hnet).
  cbn [fst snd]. split; [done|].
  split; [rewrite length_requests_after; lia|]. done.
Qed.

(** A first visit: nothing stored, the network up. *)
Lemma init_loads_six_witness :
  length (items (init (H := ordinal) sample_app (sample_world 9)).1.1) = 9
  /\ data_theme (init (H := ordinal) sample_app (sample_world 9)).1.2 = "dark".
Proof.
  assert (Hnet : forall k : nat, k < 6 ->
            network (sample_world 9) (length (requests (sample_world 9)) + k)
            = None).
  { intros k Hk.
    destruct k as [|[|[|[|[|[|k]]]]]]; try reflexivity. lia. }
  pose proof (init_loads_six (H := ordinal) sample_app (sample_world 9) Hnet)
    as (Hitems & _ & _ & Htheme & _).
  split.
  - rewrite Hitems. reflexivity.
  - exact Htheme.
Defined.

(** X27. Deriving the view never writes to the collection: after
    [applySearch] and then [applySort] over the store of arrays, the array
    that was given holds what it held, also when the query is blank and
    [applySearch] has handed that very array on; the view is another array
    and holds the sorted search result. *)
Theorem view_keeps_collection `{Collator} (ls : Storage) (l : positive)
  (q mode : string) (h : Ref.heap) (v : list Item) :
  h !! l = Some v ->
  let s := Ref.applySearch ls l q h in
  let r := Ref.applySort ls s.1 mode s.2 in
  r.2 !! l = Some v
  /\ r.1 <> l
  /\ r.2 !! r.1 = Some (applySort ls (applySearch ls v q) mode)
  /\ (norm q = EmptyString -> s.1 = l).
Proof.
  intros Hl s r. subst r s.
  assert (Hs : (Ref.applySearch ls l q h).2 !! l = Some v)
    by (rewrite applySearch_old; eauto).
  split; [rewrite applySort_old; eauto|].
  split.
  { intros E.
    pose proof (applySort_fresh ls (Ref.applySearch ls l q h).1 mode
                  (Ref.applySearch ls l q h).2) as Hf.
    rewrite E, Hs in Hf. discriminate. }
  split.
  { rewrite applySort_contents, applySearch_contents.
    unfold Ref.contents at 1. by rewrite Hl. }
  intros Hq. by rewrite applySearch_alias.
Qed.

(** The sample store, a blank query, the "az" mode. *)
Lemma view_keeps_collection_witness :
  (Ref.applySort (H := ordinal) sample_storage
     (Ref.applySearch sample_storage 1 "  " sample_heap).1 "az"
     (Ref.applySearch sample_storage 1 "  " sample_heap).2).2 !! 1%positive
  = Some sample_items.
Proof.
  apply (view_keeps_collection (H := ordinal) sample_storage 1 "  " "az"
           sample_heap sample_items).
  apply lookup_singleton_eq.
Defined.

(** X28. A change of the sort mode takes the mode from the select box and
    renders: the same items are in view as before, in the order of the new
    mode; the collection, the query and the storage stay. *)
Theorem onSortChange_same_items `{Collator} (app : App) :
  let app' := onSortChange app in
  sortMode app' = sortSelect_value (document app)
  /\ view app' ≡ₚ view app
  /\ List.map card_item (resultsGrid (document app'))
     = applySort (localStorage app)
         (applySearch (localStorage app) (items app) (query app))
         (sortSelect_value (document app))
  /\ items app' = items app
  /\ query app' = query app
  /\ localStorage app' = localStorage app.
Proof.
  intros app'. subst app'. unfold onSortChange.
  split; [done|]. split.
  { unfold view. simpl. by rewrite !applySort_perm. }
  split; [|done]. by rewrite render_grid.
Qed.
